(** * Gestão de Tempo: the session timer and its SQLite log store

    A shallow embedding of [gestao_tempo.py]: the [Database] class (tables
    [projects], [subjects], [logs] and the aggregation queries) and the timer
    methods of [PomodoroApp] ([start], [_tick], [_finish_session], [pause],
    [reset_timer]).

    Conventions of the embedding.
    - A Python [str] is a [string]; a character is a code point below 256.
    - A Python [int] and an SQLite [INTEGER] are [Z].  SQLite's 64-bit range is
      not modelled: the stored values are row ids and durations in seconds.
    - [dt.datetime.now()] is a number of microseconds since
      0001-01-01T00:00:00 (never negative).  An ISO text with second
      precision, as written by [isoformat(timespec="seconds")], is the number
      of whole seconds since the same origin; a calendar date, as computed by
      SQL's [DATE(...)] or written [YYYY-MM-DD], is the number of whole days.
      Both texts order as the numbers do.
    - A method is a function on the object's state that returns an [outcome]
      and the state it leaves behind; an exception keeps the mutations made
      before it was raised.
    - The four settings are the integers that the [tk.IntVar]s hold.
    - Widgets that only display the state (labels, the tree view of today's
      logs) are left out; message boxes are recorded in [shown]. *)

From Stdlib Require Import Ascii String ZArith.
From stdpp Require Import gmap strings list sorting.

Local Open Scope string_scope.
Local Open Scope Z_scope.

(** ** Outcomes and the state monad of a method call *)

Inductive exn :=
  | ValueError (msg : string)
  | IntegrityError (msg : string)
  | TypeError (msg : string).

(** [Waiting]: the call has opened a modal dialog that nobody has answered
    yet, so it has not returned. *)
Inductive outcome (A : Type) :=
  | Returned (a : A)
  | Raised (e : exn)
  | Waiting.
Arguments Returned {A} a.
Arguments Raised {A} e.
Arguments Waiting {A}.

Definition M (S A : Type) : Type := S -> outcome A * S.

Definition ret {S A} (a : A) : M S A := fun s => (Returned a, s).

Definition bind {S A B} (m : M S A) (k : A -> M S B) : M S B :=
  fun s =>
    match m s with
    | (Returned a, s') => k a s'
    | (Raised e, s') => (Raised e, s')
    | (Waiting, s') => (Waiting, s')
    end.

Definition raise {S A} (e : exn) : M S A := fun s => (Raised e, s).
Definition get {S} : M S S := fun s => (Returned s, s).
Definition modify {S} (f : S -> S) : M S unit := fun s => (Returned tt, f s).

Declare Scope py_scope.
Delimit Scope py_scope with py.
Notation "x <- m ;; k" := (bind m (fun x => k))
  (at level 100, m at next level, right associativity) : py_scope.
Notation "m ;; k" := (bind m (fun _ => k))
  (at level 100, right associativity) : py_scope.
Local Open Scope py_scope.

(** ** Python strings: [str.strip] *)

(** [str.isspace] on the code points below 256. *)
Definition isspace (c : ascii) : bool :=
  let n := N_of_ascii c in
  ((9 <=? n) && (n <=? 13) || (28 <=? n) && (n <=? 32)
   || (n =? 133) || (n =? 160))%N.

Fixpoint lstrip (s : string) : string :=
  match s with
  | EmptyString => EmptyString
  | String c s' => if isspace c then lstrip s' else s
  end.

Fixpoint rstrip (s : string) : string :=
  match s with
  | EmptyString => EmptyString
  | String c s' =>
      match rstrip s' with
      | EmptyString => if isspace c then EmptyString else String c EmptyString
      | r => String c r
      end
  end.

Definition strip (s : string) : string := rstrip (lstrip s).

(** ** The tables *)

Record project := { project_id : Z; project_name : string }.

Record subject :=
  { subject_id : Z; subject_project_id : Z; subject_name : string }.

Record log :=
  { log_id : Z;
    log_project_id : Z;
    log_subject_id : Z;
    log_start_time : Z;
    log_end_time : Z;
    log_duration : Z }.

(** Rows are kept in insertion order.  [seq_*] is the [sqlite_sequence] entry
    of an [AUTOINCREMENT] table: the largest row id that an [INSERT] into it
    has taken, for a row that it stored or for one that [OR IGNORE]
    skipped. *)
Record Database :=
  { projects : list project;
    subjects : list subject;
    logs : list log;
    seq_projects : Z;
    seq_subjects : Z;
    seq_logs : Z }.

Definition create_tables : Database :=
  {| projects := []; subjects := []; logs := [];
     seq_projects := 0; seq_subjects := 0; seq_logs := 0 |}.

Definition max_rowid (ids : list Z) : Z := foldr Z.max 0 ids.

(** The row id an [AUTOINCREMENT] column gives to the next row. *)
Definition next_rowid (seq : Z) (ids : list Z) : Z :=
  Z.max seq (max_rowid ids) + 1.

Definition project_exists (pid : Z) (d : Database) : bool :=
  bool_decide (pid ∈ project_id <$> projects d).

Definition subject_exists (sid : Z) (d : Database) : bool :=
  bool_decide (sid ∈ subject_id <$> subjects d).

Definition fk_failed : exn := IntegrityError "FOREIGN KEY constraint failed".

(** [SELECT id FROM projects WHERE name = ?], then [fetchone()]. *)
Definition select_project_id (name : string) (d : Database) : option Z :=
  project_id <$>
    head (filter (fun p => project_name p = name) (projects d)).

(** [SELECT id FROM subjects WHERE project_id = ? AND name = ?], then
    [fetchone()]. *)
Definition select_subject_id (pid : Z) (name : string) (d : Database)
  : option Z :=
  subject_id <$>
    head (filter (fun s => subject_project_id s = pid ∧ subject_name s = name)
            (subjects d)).

(** [INSERT OR IGNORE INTO projects (name) VALUES (?)]: a row that would
    break [UNIQUE (name)] is skipped.  The row id is taken before the
    constraint is looked at, so the [sqlite_sequence] entry advances for a
    skipped row too. *)
Definition insert_or_ignore_project (name : string) : M Database unit :=
  fun d =>
    let id := next_rowid (seq_projects d) (project_id <$> projects d) in
    match select_project_id name d with
    | Some _ =>
        (Returned tt,
         {| projects := projects d;
            subjects := subjects d;
            logs := logs d;
            seq_projects := id;
            seq_subjects := seq_subjects d;
            seq_logs := seq_logs d |})
    | None =>
        (Returned tt,
         {| projects := projects d ++ [ {| project_id := id;
                                           project_name := name |} ];
            subjects := subjects d;
            logs := logs d;
            seq_projects := id;
            seq_subjects := seq_subjects d;
            seq_logs := seq_logs d |})
    end.

(** [INSERT OR IGNORE INTO subjects (project_id, name) VALUES (?, ?)] with
    [PRAGMA foreign_keys = ON]: [OR IGNORE] skips a row that would break
    [UNIQUE (project_id, name)], and the [sqlite_sequence] entry advances
    all the same; it does not cover the foreign key, which is checked for a
    row that is really inserted.  The statement that fails is undone, its
    row id included. *)
Definition insert_or_ignore_subject (pid : Z) (name : string)
  : M Database unit :=
  fun d =>
    let id := next_rowid (seq_subjects d) (subject_id <$> subjects d) in
    match select_subject_id pid name d with
    | Some _ =>
        (Returned tt,
         {| projects := projects d;
            subjects := subjects d;
            logs := logs d;
            seq_projects := seq_projects d;
            seq_subjects := id;
            seq_logs := seq_logs d |})
    | None =>
        if project_exists pid d then
          (Returned tt,
           {| projects := projects d;
              subjects := subjects d ++ [ {| subject_id := id;
                                             subject_project_id := pid;
                                             subject_name := name |} ];
              logs := logs d;
              seq_projects := seq_projects d;
              seq_subjects := id;
              seq_logs := seq_logs d |})
        else (Raised fk_failed, d)
    end.

(** [row[0]] on the result of [fetchone()]. *)
Definition row0 {S} (row : option Z) : M S Z :=
  match row with
  | Some id => ret id
  | None => raise (TypeError "'NoneType' object is not subscriptable")
  end.

Definition add_project (name : string) : M Database Z :=
  let name := strip name in
  if bool_decide (name = "") then raise (ValueError "Nome do projeto vazio.")
  else
    insert_or_ignore_project name ;;
    d <- get ;;
    row0 (select_project_id name d).

Definition add_subject (project_id : Z) (name : string) : M Database Z :=
  let name := strip name in
  if bool_decide (name = "") then raise (ValueError "Nome da matéria vazio.")
  else
    insert_or_ignore_subject project_id name ;;
    d <- get ;;
    row0 (select_subject_id project_id name d).

(** [DELETE FROM projects WHERE id = ?].  [ON DELETE CASCADE] acts on the
    rows that go: with the project go its subjects, and with the project
    and with those subjects go their logs.  Without a row of that id
    nothing goes. *)
Definition delete_project (pid : Z) : M Database unit :=
  modify (fun d =>
    let gone_projects := filter (fun p => project_id p = pid) (projects d) in
    let gone_subjects :=
      filter (fun s => subject_project_id s ∈ project_id <$> gone_projects)
        (subjects d) in
    {| projects := filter (fun p => project_id p ≠ pid) (projects d);
       subjects :=
         filter (fun s => subject_project_id s ∉ project_id <$> gone_projects)
           (subjects d);
       logs :=
         filter
           (fun l => (log_project_id l ∉ project_id <$> gone_projects)
                     ∧ (log_subject_id l ∉ subject_id <$> gone_subjects))
           (logs d);
       seq_projects := seq_projects d;
       seq_subjects := seq_subjects d;
       seq_logs := seq_logs d |}).

(** [DELETE FROM subjects WHERE id = ?]; the logs of a subject that goes
    go with it. *)
Definition delete_subject (sid : Z) : M Database unit :=
  modify (fun d =>
    let gone_subjects := filter (fun s => subject_id s = sid) (subjects d) in
    {| projects := projects d;
       subjects := filter (fun s => subject_id s ≠ sid) (subjects d);
       logs :=
         filter (fun l => log_subject_id l ∉ subject_id <$> gone_subjects)
           (logs d);
       seq_projects := seq_projects d;
       seq_subjects := seq_subjects d;
       seq_logs := seq_logs d |}).

(** [INSERT INTO logs ...]; both foreign keys are checked.  Returns
    [cur.lastrowid]. *)
Definition add_log (project_id subject_id start_iso end_iso
                    duration_seconds : Z) : M Database Z :=
  fun d =>
    if project_exists project_id d && subject_exists subject_id d then
      let id := next_rowid (seq_logs d) (log_id <$> logs d) in
      (Returned id,
       {| projects := projects d;
          subjects := subjects d;
          logs := logs d ++ [ {| log_id := id;
                                 log_project_id := project_id;
                                 log_subject_id := subject_id;
                                 log_start_time := start_iso;
                                 log_end_time := end_iso;
                                 log_duration := duration_seconds |} ];
          seq_projects := seq_projects d;
          seq_subjects := seq_subjects d;
          seq_logs := id |})
    else (Raised fk_failed, d).

(** ** Stores built by the methods *)

(** The same rows in the three tables; the [sqlite_sequence] entries may
    differ. *)
Definition same_rows (d d' : Database) : Prop :=
  projects d' = projects d ∧ subjects d' = subjects d ∧ logs d' = logs d.

(** The foreign key of [subjects]: every subject belongs to a project. *)
Definition fk_ok (d : Database) : Prop :=
  ∀ s, s ∈ subjects d → subject_project_id s ∈ project_id <$> projects d.

(** The stores that the methods of [Database] produce, starting from the
    empty tables of [create_tables]; a method that raises leaves the store as
    it left it. *)
Inductive built : Database → Prop :=
  | built_create : built create_tables
  | built_add_project name d : built d → built (add_project name d).2
  | built_add_subject pid name d : built d → built (add_subject pid name d).2
  | built_delete_project pid d : built d → built (delete_project pid d).2
  | built_delete_subject sid d : built d → built (delete_subject sid d).2
  | built_add_log pid sid t1 t2 dur d :
      built d → built (add_log pid sid t1 t2 dur d).2.

(** ** Aggregation queries *)

(** SQL's [DATE(start_time)] on a stored ISO text. *)
Definition DATE (iso : Z) : Z := iso `div` 86400.

(** [WHERE DATE(start_time) BETWEEN DATE(?) AND DATE(?)]. *)
Definition between (start_iso end_iso : Z) (l : log) : bool :=
  bool_decide (start_iso ≤ DATE (log_start_time l) ≤ end_iso).

(** [LEFT JOIN subjects s ON s.id = l.subject_id], column [s.name]: [None]
    is SQL's [NULL], for a log whose subject row is gone.  [s.id] is the
    primary key, so at most one row joins. *)
Definition subject_name_of (d : Database) (l : log) : option string :=
  subject_name <$>
    head (filter (fun s => subject_id s = log_subject_id l) (subjects d)).

(** One step of a [GROUP BY]/[SUM] aggregation: add [v] to the accumulator
    of group [k], opening the group when the key is new. *)
Fixpoint accumulate {K} `{EqDecision K} (k : K) (v : Z) (acc : list (K * Z))
  : list (K * Z) :=
  match acc with
  | [] => [(k, v)]
  | (k', t) :: acc' =>
      if decide (k = k') then (k', t + v) :: acc'
      else (k', t) :: accumulate k v acc'
  end.

(** [SELECT key, SUM(duration) ... GROUP BY key] over the selected rows. *)
Definition group_by_sum {K} `{EqDecision K} (key : log -> K)
    (rows : list log) : list (K * Z) :=
  foldl (fun acc l => accumulate (key l) (log_duration l) acc) [] rows.

(** [ORDER BY total_sec DESC]. The order of rows with equal totals is left
    open by SQL; here it is the one of the sort. *)
Definition by_total_desc {K} (a b : K * Z) : Prop := b.2 ≤ a.2.

#[global] Instance by_total_desc_dec {K} (a b : K * Z)
  : Decision (by_total_desc a b).
Proof. unfold by_total_desc. apply _. Defined.

(** [ORDER BY DATE(start_time)]. *)
Definition by_day_asc (a b : Z * Z) : Prop := a.1 ≤ b.1.

#[global] Instance by_day_asc_dec (a b : Z * Z) : Decision (by_day_asc a b).
Proof. unfold by_day_asc. apply _. Defined.

Definition summary_by_subject_range (start_iso end_iso : Z) (d : Database)
  : list (option string * Z) :=
  merge_sort by_total_desc
    (group_by_sum (subject_name_of d)
       (filter (fun l => between start_iso end_iso l) (logs d))).

Definition summary_by_day (start_iso end_iso : Z) (d : Database)
  : list (Z * Z) :=
  merge_sort by_day_asc
    (group_by_sum (fun l => DATE (log_start_time l))
       (filter (fun l => between start_iso end_iso l) (logs d))).

(** The range of a report: the logs that start on a day from [start_iso] to
    [end_iso], both included. *)
Definition in_range (start_iso end_iso : Z) (l : log) : Prop :=
  start_iso ≤ DATE (log_start_time l) ≤ end_iso.

#[global] Instance in_range_dec start_iso end_iso l
  : Decision (in_range start_iso end_iso l).
Proof. unfold in_range. apply _. Defined.

(** The sum of [duration] over the rows whose key is [k]. *)
Definition total_of {K} `{EqDecision K} (key : log → K) (k : K)
    (rows : list log) : Z :=
  foldr (λ l t, log_duration l + t) 0 (filter (λ l, key l = k) rows).

(** ** The timer of [PomodoroApp] *)

Inductive Session := Idle | Work | ShortBreak | LongBreak.

#[global] Instance Session_eq_dec : EqDecision Session.
Proof. solve_decision. Defined.

Definition session_name (s : Session) : string :=
  match s with
  | Idle => "Idle"
  | Work => "Work"
  | ShortBreak => "ShortBreak"
  | LongBreak => "LongBreak"
  end.

(** A call of [tkinter.messagebox]. *)
Inductive dialog :=
  | showwarning (title message : string)
  | askyesno (title message : string).

(** The answer to an [askyesno] dialog: [Sim] carries the clock reading at
    the moment of the click. *)
Inductive reply := Nao | Sim (now : Z).

(** The four [tk.IntVar] of the frame "Configuração de sessões". *)
Record Settings :=
  { work_minutes : Z;
    short_break_minutes : Z;
    long_break_minutes : Z;
    cycles_for_long_break : Z }.

(** The two comboboxes and the dictionaries from a displayed name to a row
    id that [_load_projects] and [_load_subjects] fill. *)
Record Selection :=
  { cb_project : string;
    cb_subject : string;
    _projects : gmap string Z;
    _subjects : gmap string Z }.

Record PomodoroApp :=
  { db : Database;
    settings : Settings;
    selection : Selection;
    session : Session;
    remaining : Z;
    completed_cycles : Z;
    current_start : option Z;
    current_project_id : option Z;
    current_subject_id : option Z;
    is_running : bool;
    after_id : bool;
    btn_pause : bool;
    shown : list dialog }.

(** Attribute assignment [self.x = v], one function per attribute that the
    timer methods write.  [after_id] tells whether the attribute holds a
    handle; [btn_pause] whether the button is enabled. *)
Definition set_db (v : Database) (self : PomodoroApp) : PomodoroApp :=
  {| db := v; settings := settings self; selection := selection self;
     session := session self; remaining := remaining self;
     completed_cycles := completed_cycles self;
     current_start := current_start self;
     current_project_id := current_project_id self;
     current_subject_id := current_subject_id self;
     is_running := is_running self; after_id := after_id self;
     btn_pause := btn_pause self; shown := shown self |}.

Definition set_session (v : Session) (self : PomodoroApp) : PomodoroApp :=
  {| db := db self; settings := settings self;
     selection := selection self; session := v;
     remaining := remaining self;
     completed_cycles := completed_cycles self;
     current_start := current_start self;
     current_project_id := current_project_id self;
     current_subject_id := current_subject_id self;
     is_running := is_running self; after_id := after_id self;
     btn_pause := btn_pause self; shown := shown self |}.

Definition set_remaining (v : Z) (self : PomodoroApp) : PomodoroApp :=
  {| db := db self; settings := settings self;
     selection := selection self; session := session self; remaining := v;
     completed_cycles := completed_cycles self;
     current_start := current_start self;
     current_project_id := current_project_id self;
     current_subject_id := current_subject_id self;
     is_running := is_running self; after_id := after_id self;
     btn_pause := btn_pause self; shown := shown self |}.

Definition set_completed_cycles (v : Z) (self : PomodoroApp) : PomodoroApp :=
  {| db := db self; settings := settings self;
     selection := selection self; session := session self;
     remaining := remaining self; completed_cycles := v;
     current_start := current_start self;
     current_project_id := current_project_id self;
     current_subject_id := current_subject_id self;
     is_running := is_running self; after_id := after_id self;
     btn_pause := btn_pause self; shown := shown self |}.

Definition set_current_start (v : option Z) (self : PomodoroApp)
  : PomodoroApp :=
  {| db := db self; settings := settings self;
     selection := selection self; session := session self;
     remaining := remaining self;
     completed_cycles := completed_cycles self; current_start := v;
     current_project_id := current_project_id self;
     current_subject_id := current_subject_id self;
     is_running := is_running self; after_id := after_id self;
     btn_pause := btn_pause self; shown := shown self |}.

Definition set_current_project_id (v : option Z) (self : PomodoroApp)
  : PomodoroApp :=
  {| db := db self; settings := settings self;
     selection := selection self; session := session self;
     remaining := remaining self;
     completed_cycles := completed_cycles self;
     current_start := current_start self; current_project_id := v;
     current_subject_id := current_subject_id self;
     is_running := is_running self; after_id := after_id self;
     btn_pause := btn_pause self; shown := shown self |}.

Definition set_current_subject_id (v : option Z) (self : PomodoroApp)
  : PomodoroApp :=
  {| db := db self; settings := settings self;
     selection := selection self; session := session self;
     remaining := remaining self;
     completed_cycles := completed_cycles self;
     current_start := current_start self;
     current_project_id := current_project_id self;
     current_subject_id := v; is_running := is_running self;
     after_id := after_id self; btn_pause := btn_pause self;
     shown := shown self |}.

Definition set_is_running (v : bool) (self : PomodoroApp) : PomodoroApp :=
  {| db := db self; settings := settings self;
     selection := selection self; session := session self;
     remaining := remaining self;
     completed_cycles := completed_cycles self;
     current_start := current_start self;
     current_project_id := current_project_id self;
     current_subject_id := current_subject_id self; is_running := v;
     after_id := after_id self; btn_pause := btn_pause self;
     shown := shown self |}.

Definition set_after_id (v : bool) (self : PomodoroApp) : PomodoroApp :=
  {| db := db self; settings := settings self;
     selection := selection self; session := session self;
     remaining := remaining self;
     completed_cycles := completed_cycles self;
     current_start := current_start self;
     current_project_id := current_project_id self;
     current_subject_id := current_subject_id self;
     is_running := is_running self; after_id := v;
     btn_pause := btn_pause self; shown := shown self |}.

Definition set_btn_pause (v : bool) (self : PomodoroApp) : PomodoroApp :=
  {| db := db self; settings := settings self;
     selection := selection self; session := session self;
     remaining := remaining self;
     completed_cycles := completed_cycles self;
     current_start := current_start self;
     current_project_id := current_project_id self;
     current_subject_id := current_subject_id self;
     is_running := is_running self; after_id := after_id self;
     btn_pause := v; shown := shown self |}.

Definition set_shown (v : list dialog) (self : PomodoroApp) : PomodoroApp :=
  {| db := db self; settings := settings self;
     selection := selection self; session := session self;
     remaining := remaining self;
     completed_cycles := completed_cycles self;
     current_start := current_start self;
     current_project_id := current_project_id self;
     current_subject_id := current_subject_id self;
     is_running := is_running self; after_id := after_id self;
     btn_pause := btn_pause self; shown := v |}.

(** Truth value of an [Optional[int]]: [None] and [0] are false. *)
Definition truthy (o : option Z) : bool :=
  match o with
  | Some n => bool_decide (n ≠ 0)
  | None => false
  end.

(** [t.isoformat(timespec="seconds")]: the microseconds are cut off. *)
Definition isoformat (t : Z) : Z := t `div` 1000000.

(** [int((end_time - start).total_seconds())]: [int] rounds towards zero.
    [total_seconds()] is a float; it is taken as the exact quotient, which it
    is to the microsecond on the spans of a session. *)
Definition total_seconds (start end_time : Z) : Z :=
  (end_time - start) `quot` 1000000.

(** A call of a [Database] method through [self.db]. *)
Definition with_db {A} (m : M Database A) : M PomodoroApp A :=
  fun self => let (o, d) := m (db self) in (o, set_db d self).

Definition show (d : dialog) : M PomodoroApp unit :=
  modify (fun self => set_shown (shown self ++ [d]) self).

Definition waiting {S A} : M S A := fun s => (Waiting, s).

(** The statements that write the log of a work interval.  They stand twice
    in the source, with the same text: in [_finish_session] and, under the
    comment "registra log parcial", in [pause].  A [datetime] is always
    true, so [if self.current_start] tests for [None]; the two ids are
    true, and so not [None], where they are passed to [add_log]. *)
Definition log_work_interval (end_time : Z) : M PomodoroApp unit :=
  self <- get ;;
  match current_start self with
  | Some start =>
      if bool_decide (session self = Work) then
        let duration := total_seconds start end_time in
        if bool_decide (0 < duration)
           && truthy (current_project_id self)
           && truthy (current_subject_id self)
        then
          match current_project_id self, current_subject_id self with
          | Some pid, Some sid =>
              with_db (add_log pid sid (isoformat start)
                         (isoformat end_time) duration) ;;
              ret tt
          | _, _ => ret tt
          end
        else ret tt
      else ret tt
  | None => ret tt
  end.

(** The warning of [start]. *)
Definition selection_required : dialog :=
  showwarning "Seleção necessária"
    "Selecione um projeto e uma matéria antes de iniciar.".

(** [start], with the [_tick] it ends in as a parameter. *)
Definition start_with (_tick : M PomodoroApp unit) (now : Z)
  : M PomodoroApp unit :=
  self <- get ;;
  if is_running self then ret tt
  else
    let project_name := cb_project (selection self) in
    let subject_name := cb_subject (selection self) in
    if bool_decide (project_name = "") || bool_decide (subject_name = "")
    then
      show selection_required
    else
      modify (set_current_project_id
                (_projects (selection self) !! project_name)) ;;
      modify (set_current_subject_id
                (_subjects (selection self) !! subject_name)) ;;
      (if bool_decide (session self = Idle) then
         modify (set_session Work) ;;
         modify (set_remaining (work_minutes (settings self) * 60)) ;;
         modify (set_completed_cycles 0)
       else ret tt) ;;
      modify (set_current_start (Some now)) ;;
      modify (set_is_running true) ;;
      modify (set_btn_pause true) ;;
      _tick.

(** [_tick], with the [_finish_session] it may call as a parameter.  The
    last statement schedules the next call, one second later. *)
Definition _tick_with (_finish_session : M PomodoroApp unit)
  : M PomodoroApp unit :=
  self <- get ;;
  if negb (is_running self) then ret tt
  else if bool_decide (remaining self ≤ 0) then _finish_session
  else
    modify (set_remaining (remaining self - 1)) ;;
    modify (set_after_id true).

(** [_finish_session] up to the alert: the log of the interval and the
    choice of the next session. *)
Definition finish_transition (now : Z) : M PomodoroApp unit :=
  modify (set_is_running false) ;;
  modify (set_btn_pause false) ;;
  let end_time := now in
  log_work_interval end_time ;;
  modify (set_current_start None) ;;
  self <- get ;;
  if bool_decide (session self = Work) then
    modify (set_completed_cycles (completed_cycles self + 1)) ;;
    self <- get ;;
    if bool_decide (cycles_for_long_break (settings self)
                    ≤ completed_cycles self)
    then
      modify (set_session LongBreak) ;;
      modify (set_remaining (long_break_minutes (settings self) * 60)) ;;
      modify (set_completed_cycles 0)
    else
      modify (set_session ShortBreak) ;;
      modify (set_remaining (short_break_minutes (settings self) * 60))
  else
    modify (set_session Work) ;;
    modify (set_remaining (work_minutes (settings self) * 60)).

Definition newline : string := String "010"%char EmptyString.

(** The alert of [_finish_session], for the session that comes next. *)
Definition next_session_ready (s : Session) : dialog :=
  askyesno "Próxima sessão"
    ("Sessão " +:+ session_name s +:+ " pronta." +:+ newline
     +:+ "Deseja iniciar agora?").

(** [_finish_session].  [replies] are the answers to the dialogs that the
    call opens, in order; the call waits when they run out.  After "Sim" the
    method calls [start], whose [_tick] may finish a session in turn. *)
Fixpoint _finish_session (replies : list reply) (now : Z)
  : M PomodoroApp unit :=
  finish_transition now ;;
  self <- get ;;
  show (next_session_ready (session self)) ;;
  match replies with
  | [] => waiting
  | Nao :: _ => ret tt
  | Sim now' :: replies' =>
      start_with (_tick_with (_finish_session replies' now')) now'
  end.

Definition _tick (replies : list reply) (now : Z) : M PomodoroApp unit :=
  _tick_with (_finish_session replies now).

Definition start (replies : list reply) (now : Z) : M PomodoroApp unit :=
  start_with (_tick replies now) now.

Definition pause (now : Z) : M PomodoroApp unit :=
  self <- get ;;
  if negb (is_running self) then ret tt
  else
    modify (set_is_running false) ;;
    (if after_id self then modify (set_after_id false) else ret tt) ;;
    let end_time := now in
    log_work_interval end_time ;;
    modify (set_current_start None) ;;
    modify (set_btn_pause false).

Definition reset_timer : M PomodoroApp unit :=
  modify (set_is_running false) ;;
  self <- get ;;
  (if after_id self then modify (set_after_id false) else ret tt) ;;
  modify (set_session Idle) ;;
  modify (set_completed_cycles 0) ;;
  self <- get ;;
  modify (set_remaining (work_minutes (settings self) * 60)) ;;
  modify (set_current_start None) ;;
  modify (set_btn_pause false).

(** ** The event loop *)

(** What Tk's main loop delivers to the timer: a click on one of the three
    buttons or the callback that [_tick] scheduled, each with the clock
    reading at that moment and the answers to the dialogs it will open. *)
Inductive event :=
  | Iniciar (now : Z) (replies : list reply)
  | Pausar (now : Z)
  | Resetar
  | After (now : Z) (replies : list reply).

Definition dispatch (ev : event) : M PomodoroApp unit :=
  match ev with
  | Iniciar now replies => start replies now
  | Pausar now => pause now
  | Resetar => reset_timer
  | After now replies => _tick replies now
  end.

(** Tk reports an exception of a callback and goes on with the next event. *)
Definition mainloop (evs : list event) (self : PomodoroApp) : PomodoroApp :=
  foldl (fun self ev => (dispatch ev self).2) self evs.

(** [n] callbacks, one second apart, after the moment [t]; the last one
    receives [replies]. *)
Fixpoint callbacks (t : Z) (n : nat) (replies : list reply) : list event :=
  match n with
  | O => []
  | S O => [After (t + 1000000) replies]
  | S n' => After (t + 1000000) [] :: callbacks (t + 1000000) n' replies
  end.

(** ** Vocabulary of the statements *)

(** The state in which [_finish_session] opens the alert. *)
Definition alerted (self : PomodoroApp) : PomodoroApp :=
  set_shown (shown self ++ [next_session_ready (session self)]) self.

(** The ids that the timer holds for the next log are rows of the store. *)
Definition ids_in_store (self : PomodoroApp) : Prop :=
  ∀ pid sid,
    current_project_id self = Some pid →
    current_subject_id self = Some sid →
    project_exists pid (db self) = true ∧ subject_exists sid (db self) = true.

(** A project and a subject are selected: the comboboxes show names that the
    dictionaries map to the ids [pid] and [sid] of rows of the store. *)
Record selected (pid sid : Z) (self : PomodoroApp) : Prop :=
  { sel_project : cb_project (selection self) ≠ "";
    sel_subject : cb_subject (selection self) ≠ "";
    sel_pid : _projects (selection self) !! cb_project (selection self)
              = Some pid;
    sel_sid : _subjects (selection self) !! cb_subject (selection self)
              = Some sid;
    sel_pid_true : pid ≠ 0;
    sel_sid_true : sid ≠ 0;
    sel_pid_row : project_exists pid (db self) = true;
    sel_sid_row : subject_exists sid (db self) = true }.

(** The countdown of session [ses] is running since [start], with [rem]
    seconds left, [cyc] completed cycles and the logs [L]. *)
Record counting (pid sid : Z) (st : Settings) (ses : Session)
    (rem cyc start : Z) (L : list log) (self : PomodoroApp) : Prop :=
  { cnt_selected : selected pid sid self;
    cnt_settings : settings self = st;
    cnt_running : is_running self = true;
    cnt_session : session self = ses;
    cnt_remaining : remaining self = rem;
    cnt_cycles : completed_cycles self = cyc;
    cnt_start : current_start self = Some start;
    cnt_pid : current_project_id self = Some pid;
    cnt_sid : current_subject_id self = Some sid;
    cnt_logs : logs (db self) = L }.




(** ** Four work sessions in a row *)

(** The defaults of the four settings. *)
Definition standard : Settings :=
  {| work_minutes := 25; short_break_minutes := 5;
     long_break_minutes := 15; cycles_for_long_break := 4 |}.

(** A click on "Iniciar" at [t0], then every session runs to its end with
    one callback per second and the alert is answered "Sim": at [t1] after
    the first work session, at [t2] after the short break that follows, and
    so on.  [r] is the answer to the alert after the fourth work session. *)
Definition four_work_sessions (t0 t1 t2 t3 t4 t5 t6 : Z) (r : reply)
  : list event :=
  (Iniciar t0 [] :: callbacks t0 1500 [Sim t1]
   ++ callbacks t1 300 [Sim t2] ++ callbacks t2 1500 [Sim t3]
   ++ callbacks t3 300 [Sim t4] ++ callbacks t4 1500 [Sim t5]
   ++ callbacks t5 300 [Sim t6] ++ callbacks t6 1500 [r])%list.

(** ** States to run the methods on *)

(** The store that [main] sets up on first use. *)
Definition db0 : Database :=
  (add_subject 1 "Geral" (add_project "Default" create_tables).2).2.

(** The window after [__init__] on [db0]: the defaults of the four settings,
    the first project and its first subject selected. *)
Definition app0 : PomodoroApp :=
  {| db := db0;
     settings := standard;
     selection := {| cb_project := "Default"; cb_subject := "Geral";
                     _projects := {[ "Default" := 1 ]};
                     _subjects := {[ "Geral" := 1 ]} |};
     session := Idle; remaining := 1500; completed_cycles := 0;
     current_start := None;
     current_project_id := Some 1; current_subject_id := Some 1;
     is_running := false; after_id := false; btn_pause := false;
     shown := [] |}.

(** The window one click on "Iniciar" later, at time 0. *)
Definition working : PomodoroApp := (start [] 0 app0).2.

(** The window when the countdown of the first work session has reached
    zero, 1499 callbacks later. *)
Definition work_done : PomodoroApp := mainloop (callbacks 0 1499 []) working.


(** ** The constraints of the schema *)

(** [INTEGER PRIMARY KEY AUTOINCREMENT]: the ids of a table are distinct,
    positive and not above the table's entry in [sqlite_sequence]. *)
Definition keys_ok (seq : Z) (ids : list Z) : Prop :=
  0 ≤ seq ∧ NoDup ids ∧ ∀ i, i ∈ ids → 0 < i ≤ seq.

(** A name as the methods store it: stripped and not empty. *)
Definition stored_name (name : string) : Prop :=
  name ≠ "" ∧ strip name = name.

(** What [create_tables] declares: the primary keys, [UNIQUE (name)] on
    [projects], [UNIQUE (project_id, name)] on [subjects] and the foreign
    keys of [subjects] and [logs]; and what the methods add to it, names
    that are stripped and not empty. *)
Record schema (d : Database) : Prop :=
  { project_keys : keys_ok (seq_projects d) (project_id <$> projects d);
    subject_keys : keys_ok (seq_subjects d) (subject_id <$> subjects d);
    log_keys : keys_ok (seq_logs d) (log_id <$> logs d);
    project_unique : NoDup (project_name <$> projects d);
    subject_unique :
      NoDup ((λ s, (subject_project_id s, subject_name s)) <$> subjects d);
    project_names : ∀ p, p ∈ projects d → stored_name (project_name p);
    subject_names : ∀ s, s ∈ subjects d → stored_name (subject_name s);
    subject_fk : fk_ok d;
    log_fk : ∀ l, l ∈ logs d →
               log_project_id l ∈ project_id <$> projects d
               ∧ log_subject_id l ∈ subject_id <$> subjects d }.

(** A store reached from [d] by further calls of the methods. *)
Inductive later (d : Database) : Database → Prop :=
  | later_now : later d d
  | later_add_project name d' :
      later d d' → later d (add_project name d').2
  | later_add_subject pid name d' :
      later d d' → later d (add_subject pid name d').2
  | later_delete_project pid d' :
      later d d' → later d (delete_project pid d').2
  | later_delete_subject sid d' :
      later d d' → later d (delete_subject sid d').2
  | later_add_log pid sid t1 t2 dur d' :
      later d d' → later d (add_log pid sid t1 t2 dur d').2.

(** ** The listings of [Database] *)

(** [ORDER BY name]: SQLite compares texts byte by byte, which on UTF-8 is
    the order of the code points. *)
Definition by_name (a b : Z * string) : Prop := String.leb a.2 b.2 = true.

#[global] Instance by_name_dec (a b : Z * string) : Decision (by_name a b).
Proof. unfold by_name. apply _. Defined.

(** [SELECT id, name FROM projects ORDER BY name]. *)
Definition get_projects (d : Database) : list (Z * string) :=
  merge_sort by_name ((λ p, (project_id p, project_name p)) <$> projects d).

(** [SELECT id, name FROM subjects WHERE project_id = ? ORDER BY name]. *)
Definition get_subjects (project_id : Z) (d : Database) : list (Z * string) :=
  merge_sort by_name
    ((λ s, (subject_id s, subject_name s))
       <$> filter (λ s, subject_project_id s = project_id) (subjects d)).

(** [LEFT JOIN projects p ON p.id = l.project_id], column [p.name]. *)
Definition project_name_of (d : Database) (l : log) : option string :=
  project_name <$>
    head (filter (λ p, project_id p = log_project_id l) (projects d)).

(** A row of [get_logs_day] and [get_logs_range]: id, project name, subject
    name, start, end, duration. *)
Definition joined (d : Database) (l : log)
  : Z * option string * option string * Z * Z * Z :=
  (log_id l, project_name_of d l, subject_name_of d l,
   log_start_time l, log_end_time l, log_duration l).

(** [ORDER BY l.start_time]. *)
Definition by_start (a b : log) : Prop := log_start_time a ≤ log_start_time b.

#[global] Instance by_start_dec (a b : log) : Decision (by_start a b).
Proof. unfold by_start. apply _. Defined.

(** [WHERE DATE(l.start_time) = ?]. *)
Definition on_day (day_iso : Z) (l : log) : Prop :=
  DATE (log_start_time l) = day_iso.

#[global] Instance on_day_dec day_iso l : Decision (on_day day_iso l).
Proof. unfold on_day. apply _. Defined.

Definition get_logs_day (day_iso : Z) (d : Database)
  : list (Z * option string * option string * Z * Z * Z) :=
  joined d <$> merge_sort by_start (filter (on_day day_iso) (logs d)).

Definition get_logs_range (start_iso end_iso : Z) (d : Database)
  : list (Z * option string * option string * Z * Z * Z) :=
  joined d <$>
    merge_sort by_start (filter (λ l, between start_iso end_iso l) (logs d)).

Definition summary_by_subject_day (day_iso : Z) (d : Database)
  : list (option string * Z) :=
  merge_sort by_total_desc
    (group_by_sum (subject_name_of d) (filter (on_day day_iso) (logs d))).

(** The sum of the second components, as the loops of the reports add
    them up. *)
Definition sum_totals {K} (rows : list (K * Z)) : Z :=
  foldl (λ total row, total + row.2) 0 rows.

(** The sum of the durations of logs. *)
Definition sum_durations (rows : list log) : Z :=
  foldr (λ l t, log_duration l + t) 0 rows.

(** ** The totals of the reports *)

(** [total_sec] of [export_day_pdf]: the loop over the rows of
    [get_logs_day] adds up their durations. *)
Definition export_day_total (day_iso : Z) (d : Database) : Z :=
  sum_totals (get_logs_day day_iso d).

(** [total_semana_sec] of [export_week_pdf]: the loop over the rows of
    [summary_by_subject_range] adds up their totals. *)
Definition export_week_total (start_iso end_iso : Z) (d : Database) : Z :=
  sum_totals (summary_by_subject_range start_iso end_iso d).

(** How far an export gets before it asks for a file name: it stops at
    once with the warning "ReportLab" when the library is missing, and with
    the message "Sem dados" when there is nothing to report. *)
Inductive export_start :=
  | reportlab_missing
  | sem_dados
  | save_dialog.

(** [export_day_pdf], up to [asksaveasfilename]. *)
Definition export_day_pdf (REPORTLAB_AVAILABLE : bool) (day_iso : Z)
    (d : Database) : export_start :=
  if negb REPORTLAB_AVAILABLE then reportlab_missing
  else
    let logs := get_logs_day day_iso d in
    if bool_decide (logs = []) then sem_dados else save_dialog.

(** [export_week_pdf], up to [asksaveasfilename]. *)
Definition export_week_pdf (REPORTLAB_AVAILABLE : bool)
    (start_iso end_iso : Z) (d : Database) : export_start :=
  if negb REPORTLAB_AVAILABLE then reportlab_missing
  else
    let subj_data := summary_by_subject_range start_iso end_iso d in
    let day_data := summary_by_day start_iso end_iso d in
    if bool_decide (subj_data = []) && bool_decide (day_data = [])
    then sem_dados
    else save_dialog.

(** ** The loaders of [PomodoroApp] *)

(** A combobox is the text it shows.  [cb.current(0)] shows the first of
    its values; assigning [cb["values"]] leaves the text that is shown. *)
Definition set_cb_project (v : string) (sel : Selection) : Selection :=
  {| cb_project := v; cb_subject := cb_subject sel;
     _projects := _projects sel; _subjects := _subjects sel |}.

Definition set_cb_subject (v : string) (sel : Selection) : Selection :=
  {| cb_project := cb_project sel; cb_subject := v;
     _projects := _projects sel; _subjects := _subjects sel |}.

Definition set__projects (v : gmap string Z) (sel : Selection) : Selection :=
  {| cb_project := cb_project sel; cb_subject := cb_subject sel;
     _projects := v; _subjects := _subjects sel |}.

Definition set__subjects (v : gmap string Z) (sel : Selection) : Selection :=
  {| cb_project := cb_project sel; cb_subject := cb_subject sel;
     _projects := _projects sel; _subjects := v |}.

Definition set_selection (f : Selection → Selection) (self : PomodoroApp)
  : PomodoroApp :=
  {| db := db self; settings := settings self;
     selection := f (selection self); session := session self;
     remaining := remaining self;
     completed_cycles := completed_cycles self;
     current_start := current_start self;
     current_project_id := current_project_id self;
     current_subject_id := current_subject_id self;
     is_running := is_running self; after_id := after_id self;
     btn_pause := btn_pause self; shown := shown self |}.

(** [{name: id for id, name in rows}]: a later row of the same name takes
    the entry over.  The keys keep the order of their first insertion, so
    the first of [list(d.keys())] is the name of the first row. *)
Definition dict_of (rows : list (Z * string)) : gmap string Z :=
  foldl (λ m row, <[row.2 := row.1]> m) ∅ rows.

Definition _load_subjects : M PomodoroApp unit :=
  self <- get ;;
  let name := cb_project (selection self) in
  let project_id := _projects (selection self) !! name in
  modify (set_current_project_id project_id) ;;
  match project_id with
  | None => modify (set_current_subject_id None)
  | Some project_id =>
      let subjects := get_subjects project_id (db self) in
      modify (set_selection (set__subjects (dict_of subjects))) ;;
      match subjects with
      | (sid, name) :: _ =>
          modify (set_selection (set_cb_subject name)) ;;
          modify (set_current_subject_id (Some sid))
      | [] => modify (set_current_subject_id None)
      end
  end.

(** The statements that guarantee a project and a subject.  They stand
    twice in the source: in [_load_projects] of [PomodoroApp] and, under
    the comment "garante pelo menos um projeto/matéria", in [main]. *)
Definition ensure_default : M Database unit :=
  d <- get ;;
  match get_projects d with
  | [] =>
      pid <- add_project "Default" ;;
      add_subject pid "Geral" ;;
      ret tt
  | _ => ret tt
  end.

Definition _load_projects : M PomodoroApp unit :=
  with_db ensure_default ;;
  self <- get ;;
  let projects := get_projects (db self) in
  modify (set_selection (set__projects (dict_of projects))) ;;
  match projects with
  | (_, name) :: _ =>
      modify (set_selection (set_cb_project name)) ;;
      _load_subjects
  | [] => ret tt
  end.

(** [PomodoroApp.__init__]: the attributes, then [_load_projects].  Before
    it the comboboxes are empty and there are no dictionaries. *)
Definition __init__ (d : Database) : outcome unit * PomodoroApp :=
  _load_projects
    {| db := d;
       settings := standard;
       selection := {| cb_project := ""; cb_subject := "";
                       _projects := ∅; _subjects := ∅ |};
       session := Idle; remaining := work_minutes standard * 60;
       completed_cycles := 0;
       current_start := None;
       current_project_id := None; current_subject_id := None;
       is_running := false; after_id := false; btn_pause := false;
       shown := [] |}.

(** [main], up to the call of [mainloop], on the store that
    [Database(DB_FILE)] opens: the window, or the exception that ends the
    program, and the store. *)
Definition main (d : Database) : outcome PomodoroApp * Database :=
  match ensure_default d with
  | (Returned _, d') =>
      match __init__ d' with
      | (Returned _, app) => (Returned app, db app)
      | (Raised e, app) => (Raised e, db app)
      | (Waiting, app) => (Waiting, db app)
      end
  | (Raised e, d') => (Raised e, d')
  | (Waiting, d') => (Waiting, d')
  end.

(** The store [db0] with one log, of 25 minutes from the first instant. *)
Definition db1 : Database := (add_log 1 1 0 1500 1500 db0).2.

(** ** What the timer does to the store *)

(** The stores that the timer reaches from [d]: it only calls [add_log],
    with the two instants of a work interval and the whole seconds between
    them, which are more than none. *)
Inductive timer_writes (d : Database) : Database → Prop :=
  | writes_nothing : timer_writes d d
  | writes_log d' pid sid start end_time :
      timer_writes d d' →
      0 < total_seconds start end_time →
      timer_writes d
        (add_log pid sid (isoformat start) (isoformat end_time)
           (total_seconds start end_time) d').2.

(** A log whose duration fits its two timestamps: the timestamps have lost
    their microseconds, so they are apart by the duration or by one second
    more. *)
Definition sound_log (l : log) : Prop :=
  0 < log_duration l
  ∧ log_duration l ≤ log_end_time l - log_start_time l ≤ log_duration l + 1.

(** No subject id is held, and the text of the subject combobox is not a
    key of the dictionary of subjects. *)
Definition no_subject_id (self : PomodoroApp) : Prop :=
  current_subject_id self = None
  ∧ _subjects (selection self) !! cb_subject (selection self) = None.

(** One or more steps of the timer: the selection and the settings stay,
    the store receives logs at most, and none while no subject id can be
    held. *)
Definition steps (s r : PomodoroApp) : Prop :=
  selection r = selection s
  ∧ settings r = settings s
  ∧ timer_writes (db s) (db r)
  ∧ (no_subject_id s → current_subject_id r = None ∧ db r = db s).

(** A method that makes steps of the timer. *)
Definition stepping (m : M PomodoroApp unit) : Prop :=
  ∀ s, steps s (m s).2.

(** The window [app0] after the manager has added the project "Aulas",
    which has no subject, and has been closed: its [on_close] is
    [_load_projects].  "Aulas" comes before "Default" and is shown; the
    subject combobox still shows "Geral". *)
Definition stale_subject : PomodoroApp :=
  (_load_projects (set_db (add_project "Aulas" db0).2 app0)).2.

(** * Proofs *)

(** ** [strip] *)

Lemma rstrip_empty s :
  rstrip s = "" ↔ forallb isspace (list_ascii_of_string s) = true.
Proof.
  induction s as [|c s IH]; simpl; [done|].
  destruct (rstrip s) eqn:E.
  - destruct (isspace c); simpl; [tauto|]. split; [done|]. intros [=].
  - split; [done|]. intros [_ H]%andb_prop. apply IH in H. done.
Qed.

Lemma lstrip_rstrip_empty s :
  rstrip (lstrip s) = "" ↔ rstrip s = "".
Proof.
  rewrite !rstrip_empty.
  induction s as [|c s IH]; simpl; [done|].
  destruct (isspace c) eqn:E; simpl; [done|]. by rewrite E.
Qed.

(** A name strips to the empty string exactly when it has only whitespace. *)
Lemma strip_empty s :
  strip s = "" ↔ forallb isspace (list_ascii_of_string s) = true.
Proof. unfold strip. by rewrite lstrip_rstrip_empty, rstrip_empty. Qed.

(** ** The methods of [Database] *)

Lemma head_filter_snoc {A} (P : A → Prop) `{∀ x, Decision (P x)}
    (l : list A) x :
  head (filter P (l ++ [x])%list)
  = match head (filter P l) with
    | Some y => Some y
    | None => if decide (P x) then Some x else None
    end.
Proof.
  rewrite filter_app. destruct (filter P l) as [|y l'] eqn:E; simpl.
  - rewrite filter_cons, filter_nil. by destruct (decide (P x)).
  - done.
Qed.

Lemma add_project_valid name d :
  strip name ≠ "" →
  ∃ id, add_project name d
        = (Returned id, (insert_or_ignore_project (strip name) d).2)
        ∧ select_project_id (strip name)
            (insert_or_ignore_project (strip name) d).2 = Some id.
Proof.
  intros Hne. unfold add_project. rewrite bool_decide_eq_false_2 by done.
  unfold bind, get, insert_or_ignore_project.
  destruct (select_project_id (strip name) d) as [id|] eqn:E; simpl.
  - exists id. unfold select_project_id in *. simpl. by rewrite E.
  - unfold select_project_id in *; simpl. rewrite head_filter_snoc.
    destruct (head _); [done|]. simpl. rewrite decide_True by done. eauto.
Qed.

(** [add_project] with a name that the table has: the id of that row, and
    a row id that is taken and not used. *)
Lemma add_project_again name d id :
  strip name ≠ "" →
  select_project_id (strip name) d = Some id →
  add_project name d
  = (Returned id,
     {| projects := projects d; subjects := subjects d; logs := logs d;
        seq_projects := next_rowid (seq_projects d)
                          (project_id <$> projects d);
        seq_subjects := seq_subjects d; seq_logs := seq_logs d |}).
Proof.
  intros Hne Hsel. unfold add_project. rewrite bool_decide_eq_false_2 by done.
  unfold bind, get, insert_or_ignore_project. rewrite Hsel.
  unfold select_project_id in *. simpl. by rewrite Hsel.
Qed.

Lemma add_subject_valid pid name d :
  strip name ≠ "" →
  project_exists pid d = true →
  ∃ id, add_subject pid name d
        = (Returned id, (insert_or_ignore_subject pid (strip name) d).2)
        ∧ select_subject_id pid (strip name)
            (insert_or_ignore_subject pid (strip name) d).2 = Some id.
Proof.
  intros Hne Hex. unfold add_subject. rewrite bool_decide_eq_false_2 by done.
  unfold bind, get, insert_or_ignore_subject.
  destruct (select_subject_id pid (strip name) d) as [id|] eqn:E; simpl.
  - exists id. unfold select_subject_id in *. simpl. by rewrite E.
  - rewrite Hex; simpl. unfold select_subject_id in *; simpl.
    rewrite head_filter_snoc. destruct (head _); [done|]. simpl.
    rewrite decide_True by done. eauto.
Qed.

Lemma add_subject_again pid name d id :
  strip name ≠ "" →
  select_subject_id pid (strip name) d = Some id →
  add_subject pid name d
  = (Returned id,
     {| projects := projects d; subjects := subjects d; logs := logs d;
        seq_projects := seq_projects d;
        seq_subjects := next_rowid (seq_subjects d)
                          (subject_id <$> subjects d);
        seq_logs := seq_logs d |}).
Proof.
  intros Hne Hsel. unfold add_subject. rewrite bool_decide_eq_false_2 by done.
  unfold bind, get, insert_or_ignore_subject. rewrite Hsel.
  unfold select_subject_id in *. simpl. by rewrite Hsel.
Qed.

Lemma add_subject_returned pid name d id d1 :
  add_subject pid name d = (Returned id, d1) →
  strip name ≠ "" ∧ select_subject_id pid (strip name) d1 = Some id.
Proof.
  unfold add_subject. case_bool_decide as Hn; [done|].
  unfold bind, get, insert_or_ignore_subject.
  destruct (select_subject_id pid (strip name) d) as [i|] eqn:E; simpl.
  - unfold select_subject_id in *. simpl. rewrite E; simpl.
    intros [= <- <-]. done.
  - destruct (project_exists pid d); [|done]. simpl.
    match goal with |- context [row0 ?x] => destruct x as [i|] eqn:E' end;
      simpl; [|done].
    intros [= <- <-]. done.
Qed.

Lemma filter_count_one {A} (P : A → Prop) `{∀ x, Decision (P x)}
    (l : list A) x :
  (length (filter P l) ≤ 1)%nat →
  P x →
  length (filter P (match head (filter P l) with
                    | Some _ => l
                    | None => (l ++ [x])%list
                    end)) = 1%nat.
Proof.
  intros Hle HP. destruct (filter P l) as [|y [|z l']] eqn:E; simpl in *.
  - rewrite filter_app, E, filter_cons, decide_True by done. done.
  - by rewrite E.
  - lia.
Qed.

Lemma row0_store {S} (r : option Z) (s : S) : (row0 r s).2 = s.
Proof. by destruct r. Qed.

Lemma add_project_subjects name d :
  subjects (add_project name d).2 = subjects d.
Proof.
  unfold add_project. case_bool_decide; [done|].
  unfold bind, get, insert_or_ignore_project.
  destruct (select_project_id _ d); simpl; by rewrite row0_store.
Qed.

Lemma add_project_projects name d p :
  p ∈ projects d → p ∈ projects (add_project name d).2.
Proof.
  unfold add_project. case_bool_decide; [done|].
  unfold bind, get, insert_or_ignore_project.
  destruct (select_project_id _ d); simpl; rewrite row0_store; [done|].
  simpl. intros Hp. apply elem_of_app. by left.
Qed.

Lemma add_subject_projects pid name d :
  projects (add_subject pid name d).2 = projects d.
Proof.
  unfold add_subject. case_bool_decide; [done|].
  unfold bind, get, insert_or_ignore_subject.
  destruct (select_subject_id _ _ d); simpl; [by rewrite row0_store|].
  destruct (project_exists pid d); simpl; [by rewrite row0_store|done].
Qed.

Lemma add_subject_subjects pid name d s :
  s ∈ subjects (add_subject pid name d).2 →
  s ∈ subjects d
  ∨ subject_project_id s = pid ∧ project_exists pid d = true.
Proof.
  unfold add_subject. case_bool_decide; [by left|].
  unfold bind, get, insert_or_ignore_subject.
  destruct (select_subject_id _ _ d); simpl; [rewrite row0_store; by left|].
  destruct (project_exists pid d); simpl; [|by left].
  rewrite row0_store. simpl. intros [Hs|Hs]%elem_of_app; [by left|].
  apply list_elem_of_singleton in Hs as ->. by right.
Qed.

Lemma add_log_tables pid sid t1 t2 dur d :
  projects (add_log pid sid t1 t2 dur d).2 = projects d
  ∧ subjects (add_log pid sid t1 t2 dur d).2 = subjects d.
Proof. unfold add_log. by destruct (_ && _). Qed.

(** The ids of the rows that a [DELETE ... WHERE id = ?] takes. *)
Lemma elem_of_gone {A} (f : A → Z) (l : list A) (k x : Z) :
  x ∈ f <$> filter (λ a, f a = k) l ↔ x = k ∧ k ∈ f <$> l.
Proof.
  rewrite !list_elem_of_fmap. split.
  - intros (a & -> & [Ha Hin]%list_elem_of_filter). split; [done|].
    exists a. done.
  - intros [-> (a & -> & Hin)]. exists a. split; [done|].
    by apply list_elem_of_filter.
Qed.

(** Foreign keys hold in every store that the methods build. *)
Lemma built_fk_ok d : built d → fk_ok d.
Proof.
  induction 1 as [|name d _ IH|pid name d _ IH|pid d _ IH|sid d _ IH
                 |pid sid t1 t2 dur d _ IH]; unfold fk_ok in *.
  - intros s Hs. simpl in Hs. by apply elem_of_nil in Hs.
  - intros s Hs. rewrite add_project_subjects in Hs.
    apply IH, list_elem_of_fmap in Hs as (p & -> & Hp).
    apply list_elem_of_fmap. eauto using add_project_projects.
  - intros s Hs. rewrite add_subject_projects.
    apply add_subject_subjects in Hs as [Hs|[-> Hex]]; [by apply IH|].
    unfold project_exists in Hex. by apply bool_decide_eq_true in Hex.
  - intros s Hs. simpl in *.
    apply list_elem_of_filter in Hs as [Hne Hs].
    apply IH, list_elem_of_fmap in Hs as (p & Hp & Hin).
    apply list_elem_of_fmap. exists p. split; [done|].
    apply list_elem_of_filter. split; [|done].
    intros Heq. apply Hne, elem_of_gone. split; [congruence|].
    apply list_elem_of_fmap. eauto.
  - intros s Hs. simpl in *.
    apply list_elem_of_filter in Hs as [_ Hs]. by apply IH.
  - intros s Hs. destruct (add_log_tables pid sid t1 t2 dur d) as [-> Hsub].
    rewrite Hsub in Hs. by apply IH.
Qed.

(** Without the project row there is no row of that project to ignore. *)
Lemma no_project_no_subject pid name d :
  fk_ok d → project_exists pid d = false →
  select_subject_id pid name d = None.
Proof.
  intros Hfk Hex. unfold select_subject_id.
  destruct (filter _ (subjects d)) as [|s l] eqn:E; [done|].
  assert (s ∈ filter (λ s, subject_project_id s = pid ∧ subject_name s = name)
            (subjects d)) as [[Hp _] Hs]%list_elem_of_filter
    by (rewrite E; left).
  apply Hfk in Hs. rewrite Hp in Hs.
  unfold project_exists in Hex. by apply bool_decide_eq_false in Hex.
Qed.

(** ** [GROUP BY] and [SUM] *)

Section GroupBy.
Context {K : Type} `{EqDecision K}.
Implicit Types (k : K) (acc : list (K * Z)) (rows : list log).

Lemma accumulate_keys k v acc k' :
  k' ∈ (accumulate k v acc).*1 ↔ k' = k ∨ k' ∈ acc.*1.
Proof.
  induction acc as [|[k0 t0] acc IH]; simpl.
  - rewrite list_elem_of_singleton. split; [by left|].
    by intros [?|?%elem_of_nil].
  - destruct (decide (k = k0)) as [->|Hne]; simpl;
      rewrite !elem_of_cons; [|rewrite IH]; tauto.
Qed.

Lemma accumulate_NoDup k v acc :
  NoDup (acc.*1) → NoDup ((accumulate k v acc).*1).
Proof.
  induction acc as [|[k0 t0] acc IH]; simpl.
  - intros _. apply NoDup_singleton.
  - rewrite NoDup_cons. intros [Hk0 Hnd].
    destruct (decide (k = k0)) as [->|Hne]; simpl.
    + by apply NoDup_cons.
    + apply NoDup_cons. split; [|by apply IH].
      rewrite accumulate_keys. intros [->|?]; done.
Qed.

Lemma accumulate_elem k v acc k' t' :
  NoDup (acc.*1) →
  (k', t') ∈ accumulate k v acc ↔
    (k' ≠ k ∧ (k', t') ∈ acc)
    ∨ (k' = k ∧ ((∃ t, (k, t) ∈ acc ∧ t' = t + v)
                 ∨ ((k ∉ acc.*1) ∧ t' = v))).
Proof.
  induction acc as [|[k0 t0] acc IH]; simpl.
  - intros _. rewrite list_elem_of_singleton. split.
    + intros [= -> ->]. right. split; [done|]. right. split; [|done].
      apply not_elem_of_nil.
    + intros [[_ []%elem_of_nil]|[-> [(t & []%elem_of_nil & _)|[_ ->]]]].
      done.
  - rewrite NoDup_cons. intros [Hk0 Hnd]. specialize (IH Hnd).
    assert (∀ t, (k0, t) ∉ acc) as Hno.
    { intros t Hin. apply Hk0, list_elem_of_fmap. by exists (k0, t). }
    assert (∀ t, (k, t) ∈ acc → k ∈ acc.*1) as Hin.
    { intros t Ht. apply list_elem_of_fmap. by exists (k, t). }
    destruct (decide (k = k0)) as [->|Hne]; simpl;
      rewrite ?not_elem_of_cons; setoid_rewrite elem_of_cons;
      [|rewrite IH]; naive_solver.
Qed.

Lemma total_of_snoc (key : log → K) k rows l :
  total_of key k (rows ++ [l])
  = total_of key k rows + (if decide (key l = k) then log_duration l else 0).
Proof.
  unfold total_of. rewrite filter_app, foldr_app.
  rewrite filter_cons, filter_nil.
  generalize (filter (λ l0, key l0 = k) rows). intros rs.
  destruct (decide (key l = k)); simpl; induction rs; simpl; lia.
Qed.

Lemma total_of_absent (key : log → K) k rows :
  k ∉ key <$> rows → total_of key k rows = 0.
Proof.
  unfold total_of. induction rows as [|l rows IH]; [done|].
  rewrite fmap_cons, not_elem_of_cons. intros [Hne Hk].
  rewrite filter_cons, decide_False by done. by apply IH.
Qed.

(** [GROUP BY] with [SUM]: one row per key that occurs, carrying the sum
    over the rows of that key. *)
Lemma group_by_sum_spec (key : log → K) rows :
  NoDup (group_by_sum key rows).*1
  ∧ ∀ k t, (k, t) ∈ group_by_sum key rows
           ↔ k ∈ key <$> rows ∧ t = total_of key k rows.
Proof.
  unfold group_by_sum.
  induction rows as [|l rows [IHnd IH]] using rev_ind; simpl.
  - split; [apply NoDup_nil_2|]. intros k t. split.
    + by intros ?%elem_of_nil.
    + by intros [?%elem_of_nil _].
  - rewrite foldl_snoc. split; [by apply accumulate_NoDup|].
    intros k t. rewrite accumulate_elem by done.
    rewrite fmap_app, elem_of_app, total_of_snoc. simpl.
    rewrite list_elem_of_singleton.
    assert (key l ∉ (foldl (λ acc l0, accumulate (key l0) (log_duration l0) acc)
                       [] rows).*1 → total_of key (key l) rows = 0) as Habs.
    { intros Hnot. apply total_of_absent. intros Hin. apply Hnot.
      apply list_elem_of_fmap. exists (key l, total_of key (key l) rows).
      split; [done|]. by apply IH. }
    setoid_rewrite IH. destruct (decide (key l = k)) as [<-|Hne].
    + split.
      * intros [[? _]|[_ [(t0 & [_ ->] & ->)|[Hnot ->]]]]; [done| |].
        -- split; [by right|done].
        -- split; [by right|]. rewrite Habs by done. lia.
      * intros [_ ->]. right. split; [done|].
        destruct (decide (key l ∈ key <$> rows)) as [Hin|Hnin].
        -- left. eauto.
        -- right. split; [|rewrite total_of_absent by done; lia].
           intros ([k0 t0] & Hk & Hin0%IH)%list_elem_of_fmap.
           simpl in Hk. subst k0. by destruct Hin0.
    + split.
      * intros [[_ [Hin ->]]|[-> _]]; [|done]. split; [by left|lia].
      * intros [[Hin| ->] ->]; [|done]. left.
        split; [done|]. split; [done|lia].
Qed.
End GroupBy.

(** ** Sorting the groups *)

Lemma by_day_asc_trans : Transitive by_day_asc.
Proof. unfold by_day_asc. intros a b c. lia. Qed.

Lemma by_day_asc_total : Total by_day_asc.
Proof. unfold by_day_asc. intros a b. lia. Qed.

Lemma by_total_desc_trans {K} : Transitive (@by_total_desc K).
Proof. unfold by_total_desc. intros a b c. lia. Qed.

Lemma by_total_desc_total {K} : Total (@by_total_desc K).
Proof. unfold by_total_desc. intros a b. lia. Qed.

Lemma between_in_range start_iso end_iso (rows : list log) :
  filter (λ l, between start_iso end_iso l) rows
  = filter (in_range start_iso end_iso) rows.
Proof.
  apply list_filter_iff. intros l. unfold between, in_range.
  by rewrite bool_decide_spec.
Qed.

(** A report on a range: [ORDER BY] permutes the groups of [GROUP BY]. *)
Lemma sorted_groups_spec {K} `{EqDecision K} (R : relation (K * Z))
    `{∀ a b, Decision (R a b)} (key : log → K) rows :
  NoDup (merge_sort R (group_by_sum key rows)).*1
  ∧ ∀ k t, (k, t) ∈ merge_sort R (group_by_sum key rows)
           ↔ k ∈ key <$> rows ∧ t = total_of key k rows.
Proof.
  destruct (group_by_sum_spec key rows) as [Hnd Hin]. split.
  - by rewrite merge_sort_Permutation.
  - intros k t. by rewrite merge_sort_Permutation.
Qed.

(** The time of day of [start_time] plays no part in the range. *)
Lemma in_range_by_date start_iso end_iso l day tod :
  log_start_time l = day * 86400 + tod → 0 ≤ tod < 86400 →
  in_range start_iso end_iso l ↔ start_iso ≤ day ≤ end_iso.
Proof.
  intros Hl Htod. unfold in_range, DATE. rewrite Hl.
  replace ((day * 86400 + tod) `div` 86400) with day; [done|].
  apply Z.div_unique with tod; lia.
Qed.

(** ** The timer methods, one at a time *)

Ltac unfold_methods :=
  unfold start, _tick, start_with, _tick_with, pause, reset_timer,
    finish_transition, log_work_interval, show, with_db,
    bind, get, modify, ret, waiting, raise.





Lemma finish_transition_rule now self :
  (session self = Work → ids_in_store self) →
  ∃ self',
    finish_transition now self = (Returned tt, self')
    ∧ is_running self' = false
    ∧ current_start self' = None
    ∧ settings self' = settings self
    ∧ (session self = Work →
       cycles_for_long_break (settings self) ≤ completed_cycles self + 1 →
       session self' = LongBreak ∧ completed_cycles self' = 0
       ∧ remaining self' = long_break_minutes (settings self) * 60)
    ∧ (session self = Work →
       completed_cycles self + 1 < cycles_for_long_break (settings self) →
       session self' = ShortBreak
       ∧ completed_cycles self' = completed_cycles self + 1
       ∧ remaining self' = short_break_minutes (settings self) * 60)
    ∧ (session self ≠ Work →
       session self' = Work
       ∧ completed_cycles self' = completed_cycles self
       ∧ remaining self' = work_minutes (settings self) * 60
       ∧ db self' = db self).
Proof.
  intros Hids. destruct self as [d st sel ses rem cyc cs cp cu run aid bp sh].
  unfold ids_in_store in Hids. simpl in *.
  unfold_methods. simpl.
  destruct cs as [start|]; simpl.
  - destruct (decide (ses = Work)) as [->|Hne].
    + specialize (Hids eq_refl).
      assert (∀ pid sid t1 t2 dur, cp = Some pid → cu = Some sid →
                ∃ id d', add_log pid sid t1 t2 dur d = (Returned id, d'))
        as Hlog.
      { intros pid sid t1 t2 dur Hp Hu.
        destruct (Hids pid sid Hp Hu) as [H1 H2].
        unfold add_log. rewrite H1, H2. simpl. eauto. }
      rewrite bool_decide_eq_true_2 by done.
      destruct cp as [pid|], cu as [sid|]; simpl;
        try (destruct (_ && _) eqn:Hc; simpl;
             [destruct (Hlog pid sid (isoformat start) (isoformat now)
                          (total_seconds start now) eq_refl eq_refl)
                as (id & d' & ->); simpl|]);
        repeat (case_bool_decide; simpl);
        eexists; (split; [reflexivity|]); simpl;
        repeat split; intros; try done; try lia.
    + rewrite !bool_decide_eq_false_2 by done. simpl.
      eexists; (split; [reflexivity|]); simpl; repeat split; intros; done.
  - destruct (decide (ses = Work)) as [->|Hne].
    + rewrite ?bool_decide_eq_true_2 by done; simpl.
      case_bool_decide; simpl; eexists; (split; [reflexivity|]); simpl;
        repeat split; intros; try done; try lia.
    + rewrite !bool_decide_eq_false_2 by done. simpl.
      eexists; (split; [reflexivity|]); simpl; repeat split; intros; done.
Qed.

(** ** Countdowns *)

Lemma total_seconds_whole t k :
  total_seconds t (t + k * 1000000) = k.
Proof.
  unfold total_seconds. replace (t + k * 1000000 - t) with (k * 1000000) by lia.
  by apply Z.quot_mul.
Qed.

Lemma mainloop_app evs1 evs2 self :
  mainloop (evs1 ++ evs2) self = mainloop evs2 (mainloop evs1 self).
Proof. apply foldl_app. Qed.

Section Countdown.
Context (pid sid : Z) (st : Settings).

Lemma tick_counting replies now ses rem cyc start L self :
  counting pid sid st ses rem cyc start L self →
  0 < rem →
  counting pid sid st ses (rem - 1) cyc start L (_tick replies now self).2.
Proof.
  intros [[] ? Hrun ? Hrem ? ? ? ? ?] Hpos.
  unfold_methods. rewrite Hrun. simpl.
  rewrite bool_decide_eq_false_2 by lia. simpl.
  repeat split; simpl; try done. by rewrite Hrem.
Qed.

Lemma tick_finishes replies now ses cyc start L self :
  counting pid sid st ses 0 cyc start L self →
  _tick replies now self = _finish_session replies now self.
Proof.
  intros [[] ? Hrun ? Hrem ? ? ? ? ?].
  unfold _tick, _tick_with, bind, get. rewrite Hrun. simpl.
  by rewrite bool_decide_eq_true_2 by lia.
Qed.

Lemma callbacks_counting n t replies ses cyc start L self :
  counting pid sid st ses (Z.of_nat n) cyc start L self →
  ∃ self',
    counting pid sid st ses 0 cyc start L self'
    ∧ mainloop (callbacks t (S n) replies) self
      = (_finish_session replies (t + (Z.of_nat n + 1) * 1000000) self').2.
Proof.
  revert t self. induction n as [|n IH]; intros t self Hc.
  - exists self. split; [done|]. simpl.
    by rewrite (tick_finishes _ _ _ _ _ _ _ Hc).
  - assert (0 < Z.of_nat (S n)) as Hpos by lia.
    pose proof (tick_counting [] (t + 1000000) _ _ _ _ _ _ Hc Hpos) as Hc'.
    replace (Z.of_nat (S n) - 1) with (Z.of_nat n) in Hc' by lia.
    destruct (IH (t + 1000000) _ Hc') as (self' & Hc0 & Heq).
    exists self'. split; [done|].
    replace (t + (Z.of_nat (S n) + 1) * 1000000)
      with (t + 1000000 + (Z.of_nat n + 1) * 1000000) by lia.
    rewrite <- Heq. reflexivity.
Qed.
End Countdown.

Lemma mainloop_cons ev evs self :
  mainloop (ev :: evs) self = mainloop evs (dispatch ev self).2.
Proof. reflexivity. Qed.

Section Sessions.
Context (pid sid : Z) (st : Settings).

(** [start] on a timer that is not running, in the middle of a session. *)
Lemma start_with_counting fin now ses rem cyc L self :
  selected pid sid self →
  settings self = st →
  is_running self = false →
  session self = ses → ses ≠ Idle →
  remaining self = rem → 0 < rem →
  completed_cycles self = cyc →
  logs (db self) = L →
  counting pid sid st ses (rem - 1) cyc now L
    (start_with (_tick_with fin) now self).2.
Proof.
  intros [Hp Hs Hpid Hsid ? ? ? ?] Hst Hrun Hses Hidle Hrem Hpos Hcyc HL.
  unfold_methods. rewrite Hrun. simpl.
  rewrite !bool_decide_eq_false_2 by congruence. simpl.
  rewrite bool_decide_eq_false_2 by lia. simpl.
  repeat split; simpl; try done. by rewrite Hrem.
Qed.

(** [start] on an idle timer. *)
Lemma start_idle replies now self :
  selected pid sid self →
  settings self = st →
  is_running self = false →
  session self = Idle →
  0 < work_minutes st * 60 →
  counting pid sid st Work (work_minutes st * 60 - 1) 0 now
    (logs (db self)) (start replies now self).2.
Proof.
  intros [Hp Hs Hpid Hsid ? ? ? ?] Hst Hrun Hses Hpos.
  unfold_methods. rewrite Hrun. simpl.
  rewrite !bool_decide_eq_false_2 by congruence. simpl.
  rewrite bool_decide_eq_true_2 by done. simpl.
  rewrite Hst. rewrite bool_decide_eq_false_2 by lia. simpl.
  repeat split; simpl; done.
Qed.

(** The end of a work session: one log, then the cycle rule. *)
Lemma transition_work now cyc start L self :
  counting pid sid st Work 0 cyc start L self →
  0 < total_seconds start now →
  ∃ self' entry,
    finish_transition now self = (Returned tt, self')
    ∧ selected pid sid self' ∧ settings self' = st
    ∧ is_running self' = false
    ∧ logs (db self') = (L ++ [entry])%list
    ∧ log_duration entry = total_seconds start now
    ∧ (session self', remaining self', completed_cycles self')
      = (if bool_decide (cycles_for_long_break st ≤ cyc + 1)
         then (LongBreak, long_break_minutes st * 60, 0)
         else (ShortBreak, short_break_minutes st * 60, cyc + 1)).
Proof.
  intros [[? ? ? ? Hp0 Hs0 Hpe Hse] Hst Hrun Hses Hrem Hcyc Hcs Hcp Hcu HL]
    Hdur.
  unfold_methods. simpl. rewrite Hcs, Hses. simpl. rewrite Hcp, Hcu. simpl.
  rewrite !bool_decide_eq_true_2 by done. simpl.
  unfold add_log. rewrite Hpe, Hse. simpl. rewrite Hses, Hcyc.
  rewrite (bool_decide_eq_true_2 (Work = Work)) by done. simpl.
  rewrite ?Hst.
  destruct (bool_decide (cycles_for_long_break st ≤ cyc + 1)); simpl;
    eexists _, _; (split; [reflexivity|]); simpl; rewrite HL;
    repeat split; simpl; try done.
Qed.

(** The end of a break: no log, and work comes next. *)
Lemma transition_break now ses cyc start L self :
  counting pid sid st ses 0 cyc start L self →
  ses ≠ Work →
  ∃ self',
    finish_transition now self = (Returned tt, self')
    ∧ selected pid sid self' ∧ settings self' = st
    ∧ is_running self' = false
    ∧ logs (db self') = L
    ∧ session self' = Work
    ∧ remaining self' = work_minutes st * 60
    ∧ completed_cycles self' = cyc.
Proof.
  intros [[? ? ? ? Hp0 Hs0 Hpe Hse] Hst Hrun Hses Hrem Hcyc Hcs Hcp Hcu HL]
    Hbreak.
  unfold_methods. simpl. rewrite Hcs, Hses. simpl.
  rewrite !bool_decide_eq_false_2 by done. simpl. rewrite Hses.
  rewrite !bool_decide_eq_false_2 by done. simpl.
  eexists; (split; [reflexivity|]); simpl; rewrite Hst.
  repeat split; simpl; try done.
Qed.
End Sessions.

Lemma finish_session_cons r replies now self self' :
  finish_transition now self = (Returned tt, self') →
  _finish_session (r :: replies) now self
  = match r with
    | Nao => (Returned tt, alerted self')
    | Sim now' =>
        start_with (_tick_with (_finish_session replies now')) now'
          (alerted self')
    end.
Proof.
  intros Ht. simpl. unfold bind at 1. rewrite Ht. by destruct r.
Qed.

Lemma finish_session_nil now self self' :
  finish_transition now self = (Returned tt, self') →
  _finish_session [] now self = (Waiting, alerted self').
Proof. intros Ht. simpl. unfold bind at 1. by rewrite Ht. Qed.

Lemma selected_alerted pid sid self :
  selected pid sid self → selected pid sid (alerted self).
Proof. by intros []. Qed.

Section Continue.
Context (pid sid : Z) (st : Settings).
Hypothesis work_positive : 0 < work_minutes st * 60.
Hypothesis short_positive : 0 < short_break_minutes st * 60.
Hypothesis long_positive : 0 < long_break_minutes st * 60.

Lemma finish_work_short now now' replies cyc start L self :
  counting pid sid st Work 0 cyc start L self →
  0 < total_seconds start now →
  cyc + 1 < cycles_for_long_break st →
  ∃ entry,
    log_duration entry = total_seconds start now
    ∧ counting pid sid st ShortBreak (short_break_minutes st * 60 - 1)
        (cyc + 1) now' (L ++ [entry])
        (_finish_session (Sim now' :: replies) now self).2.
Proof.
  intros Hc Hdur Hcyc.
  destruct (transition_work _ _ _ now _ _ _ _ Hc Hdur)
    as (self' & entry & Ht & Hsel & Hst & Hrun & HL & He & Hnext).
  rewrite bool_decide_eq_false_2 in Hnext by lia.
  injection Hnext as Hses Hrem Hcy.
  exists entry. split; [done|].
  rewrite (finish_session_cons _ _ _ _ _ Ht).
  apply start_with_counting; try done. by apply selected_alerted.
Qed.

Lemma finish_work_long now now' replies cyc start L self :
  counting pid sid st Work 0 cyc start L self →
  0 < total_seconds start now →
  cycles_for_long_break st ≤ cyc + 1 →
  ∃ entry,
    log_duration entry = total_seconds start now
    ∧ counting pid sid st LongBreak (long_break_minutes st * 60 - 1)
        0 now' (L ++ [entry])
        (_finish_session (Sim now' :: replies) now self).2.
Proof.
  intros Hc Hdur Hcyc.
  destruct (transition_work _ _ _ now _ _ _ _ Hc Hdur)
    as (self' & entry & Ht & Hsel & Hst & Hrun & HL & He & Hnext).
  rewrite bool_decide_eq_true_2 in Hnext by lia.
  injection Hnext as Hses Hrem Hcy.
  exists entry. split; [done|].
  rewrite (finish_session_cons _ _ _ _ _ Ht).
  apply start_with_counting; try done. by apply selected_alerted.
Qed.

Lemma finish_work_long_declined now replies cyc start L self :
  counting pid sid st Work 0 cyc start L self →
  0 < total_seconds start now →
  cycles_for_long_break st ≤ cyc + 1 →
  ∃ self' entry,
    _finish_session (Nao :: replies) now self = (Returned tt, self')
    ∧ log_duration entry = total_seconds start now
    ∧ logs (db self') = (L ++ [entry])%list
    ∧ session self' = LongBreak ∧ completed_cycles self' = 0
    ∧ remaining self' = long_break_minutes st * 60
    ∧ is_running self' = false.
Proof.
  intros Hc Hdur Hcyc.
  destruct (transition_work _ _ _ now _ _ _ _ Hc Hdur)
    as (self' & entry & Ht & Hsel & Hst & Hrun & HL & He & Hnext).
  rewrite bool_decide_eq_true_2 in Hnext by lia.
  injection Hnext as Hses Hrem Hcy.
  exists (alerted self'), entry.
  rewrite (finish_session_cons _ _ _ _ _ Ht). done.
Qed.

Lemma finish_break now now' replies ses cyc start L self :
  counting pid sid st ses 0 cyc start L self →
  ses ≠ Work →
  counting pid sid st Work (work_minutes st * 60 - 1) cyc now' L
    (_finish_session (Sim now' :: replies) now self).2.
Proof.
  intros Hc Hbreak.
  destruct (transition_break _ _ _ now _ _ _ _ _ Hc Hbreak)
    as (self' & Ht & Hsel & Hst & Hrun & HL & Hses & Hrem & Hcy).
  rewrite (finish_session_cons _ _ _ _ _ Ht).
  apply start_with_counting; try done. by apply selected_alerted.
Qed.
End Continue.

(** A whole work session followed by a whole short break, under the
    defaults: one log of 1500 seconds, one more cycle, and work again. *)
Lemma work_then_short_break pid sid t t' t'' cyc L self :
  counting pid sid standard Work 1499 cyc t L self →
  cyc + 1 < 4 →
  ∃ e,
    log_duration e = 1500
    ∧ counting pid sid standard Work 1499 (cyc + 1) t'' (L ++ [e])
        (mainloop (callbacks t 1500 [Sim t'] ++ callbacks t' 300 [Sim t''])
           self).
Proof.
  intros Hc Hcyc. rewrite mainloop_app.
  destruct (callbacks_counting _ _ _ 1499 t [Sim t'] _ _ _ _ _ Hc)
    as (s1 & Hs1 & ->).
  destruct (finish_work_short pid sid standard eq_refl
              (t + (Z.of_nat 1499 + 1) * 1000000) t' [] _ _ _ _ Hs1)
    as (e & He & H1); [by rewrite total_seconds_whole|exact Hcyc|].
  rewrite total_seconds_whole in He.
  change (short_break_minutes standard * 60 - 1) with (Z.of_nat 299) in H1.
  destruct (callbacks_counting _ _ _ 299 t' [Sim t''] _ _ _ _ _ H1)
    as (s2 & Hs2 & ->).
  exists e. split; [exact He|].
  exact (finish_break pid sid standard eq_refl
           (t' + (Z.of_nat 299 + 1) * 1000000) t'' [] _ _ _ _ _ Hs2
           ltac:(discriminate)).
Qed.

(** A whole work session that brings the counter to the setting: one log of
    1500 seconds, then the long break with the counter at 0, whatever the
    answer to the alert. *)
Lemma work_then_long_break pid sid t r cyc L self :
  counting pid sid standard Work 1499 cyc t L self →
  4 ≤ cyc + 1 →
  ∃ e,
    log_duration e = 1500
    ∧ logs (db (mainloop (callbacks t 1500 [r]) self)) = (L ++ [e])%list
    ∧ session (mainloop (callbacks t 1500 [r]) self) = LongBreak
    ∧ completed_cycles (mainloop (callbacks t 1500 [r]) self) = 0.
Proof.
  intros Hc Hcyc.
  destruct (callbacks_counting _ _ _ 1499 t [r] _ _ _ _ _ Hc)
    as (s1 & Hs1 & ->).
  destruct r as [|t'].
  - destruct (finish_work_long_declined pid sid standard
                (t + (Z.of_nat 1499 + 1) * 1000000) [] _ _ _ _ Hs1)
      as (s2 & e & -> & He & HL & Hses & Hcy & _);
      [by rewrite total_seconds_whole|exact Hcyc|].
    rewrite total_seconds_whole in He. by exists e.
  - destruct (finish_work_long pid sid standard eq_refl
                (t + (Z.of_nat 1499 + 1) * 1000000) t' [] _ _ _ _ Hs1)
      as (e & He & [_ _ _ Hses _ Hcy _ _ _ HL]);
      [by rewrite total_seconds_whole|exact Hcyc|].
    rewrite total_seconds_whole in He. by exists e.
Qed.

(** ** The timer only runs with a selection *)








(** * The claims *)

(** C1. With the settings 25/5/15/4, from an idle timer with a project and a
    subject selected, four work sessions that all run to their end, one
    callback per second and no pause, leave exactly four new logs, each of
    1500 seconds; after the fourth the session is [LongBreak] and the
    counter of cycles is 0. *)
Theorem four_sessions_four_logs pid sid t0 t1 t2 t3 t4 t5 t6 r self :
  selected pid sid self →
  settings self = standard →
  session self = Idle →
  is_running self = false →
  ∃ e1 e2 e3 e4,
    let self' :=
      mainloop (four_work_sessions t0 t1 t2 t3 t4 t5 t6 r) self in
    logs (db self') = (logs (db self) ++ [e1; e2; e3; e4])%list
    ∧ log_duration e1 = 1500 ∧ log_duration e2 = 1500
    ∧ log_duration e3 = 1500 ∧ log_duration e4 = 1500
    ∧ session self' = LongBreak
    ∧ completed_cycles self' = 0.
Proof.
  intros Hsel Hst Hidle Hrun.
  unfold four_work_sessions.
  rewrite mainloop_cons.
  change (dispatch (Iniciar t0 []) self) with (start [] t0 self).
  pose proof (start_idle pid sid standard [] t0 _ Hsel Hst Hrun Hidle eq_refl)
    as H0.
  change (work_minutes standard * 60 - 1) with 1499 in H0.
  rewrite (app_assoc (callbacks t0 _ _)), mainloop_app.
  destruct (work_then_short_break _ _ t0 t1 t2 _ _ _ H0 eq_refl)
    as (e1 & He1 & H1).
  rewrite (app_assoc (callbacks t2 _ _)), mainloop_app.
  destruct (work_then_short_break _ _ t2 t3 t4 _ _ _ H1 eq_refl)
    as (e2 & He2 & H2).
  rewrite (app_assoc (callbacks t4 _ _)), mainloop_app.
  destruct (work_then_short_break _ _ t4 t5 t6 _ _ _ H2 eq_refl)
    as (e3 & He3 & H3).
  destruct (work_then_long_break _ _ t6 r _ _ _ H3 ltac:(done))
    as (e4 & He4 & HL & Hses & Hcyc).
  exists e1, e2, e3, e4. cbv zeta.
  rewrite HL, <- !app_assoc. repeat split; assumption || reflexivity.
Qed.

Lemma selected_app0 : selected 1 1 app0.
Proof. split; by vm_compute. Qed.

Lemma four_sessions_four_logs_witness :
  ∃ e1 e2 e3 e4,
    let self' :=
      mainloop (four_work_sessions 0 1600000000 2000000000 3600000000
                  4000000000 5600000000 6000000000 Nao) app0 in
    logs (db self') = (logs (db app0) ++ [e1; e2; e3; e4])%list
    ∧ log_duration e1 = 1500 ∧ log_duration e2 = 1500
    ∧ log_duration e3 = 1500 ∧ log_duration e4 = 1500
    ∧ session self' = LongBreak
    ∧ completed_cycles self' = 0.
Proof.
  apply (four_sessions_four_logs 1 1); [exact selected_app0|reflexivity..].
Defined.

(** C2, as the claim has it: every end of a work session adds one to the
    counter of cycles and leads to a break.  It does not when the log
    cannot be written.  Here the project is deleted while the first work
    session runs, as the window "Projetos e Matérias" can do; at the end of
    the countdown [add_log] raises, [_finish_session] stops there, and the
    session is still [Work] with no cycle counted. *)
Lemma work_completion_project_deleted :
  ¬ (∀ now self,
       session self = Work →
       let self' := (_finish_session [Nao] now self).2 in
       if bool_decide (cycles_for_long_break (settings self)
                       ≤ completed_cycles self + 1)
       then session self' = LongBreak ∧ completed_cycles self' = 0
       else session self' = ShortBreak
            ∧ completed_cycles self' = completed_cycles self + 1).
Proof.
  intros H.
  specialize (H 1500000000
                (set_db (delete_project 1 (db work_done)).2 work_done)
                eq_refl).
  vm_compute in H. destruct H as [H _]. discriminate H.
Qed.

(** C2, amended. When [_finish_session] ends a work session it adds one to the
    counter of cycles; if the counter has then reached the setting "ciclos
    para pausa longa" the next session is [LongBreak] and the counter goes
    back to 0, otherwise the next session is [ShortBreak].  When it ends a
    break the next session is [Work], whatever the counter, which it keeps.
    The seconds left are those of the setting for the new session.  This is
    the state [self'] in which the alert is shown; the call waits there for
    the answer, returns on "Não" and goes on with [start] on "Sim".  At the
    end of a work session the ids that the timer holds are rows of the
    store, so that writing the log raises nothing. *)
Theorem cycle_rule now self :
  (session self = Work → ids_in_store self) →
  ∃ self',
    (∀ replies,
        _finish_session replies now self
        = match replies with
          | [] => (Waiting, self')
          | Nao :: _ => (Returned tt, self')
          | Sim now' :: replies' => start replies' now' self'
          end)
    ∧ (session self = Work →
       cycles_for_long_break (settings self) ≤ completed_cycles self + 1 →
       session self' = LongBreak ∧ completed_cycles self' = 0
       ∧ remaining self' = long_break_minutes (settings self) * 60)
    ∧ (session self = Work →
       completed_cycles self + 1 < cycles_for_long_break (settings self) →
       session self' = ShortBreak
       ∧ completed_cycles self' = completed_cycles self + 1
       ∧ remaining self' = short_break_minutes (settings self) * 60)
    ∧ (session self ≠ Work →
       session self' = Work
       ∧ completed_cycles self' = completed_cycles self
       ∧ remaining self' = work_minutes (settings self) * 60).
Proof.
  intros Hids.
  destruct (finish_transition_rule now self Hids)
    as (s & Ht & _ & _ & _ & Hlong & Hshort & Hbreak).
  exists (alerted s). split.
  - intros [|r replies]; [by apply finish_session_nil|].
    rewrite (finish_session_cons _ _ _ _ _ Ht). by destruct r.
  - split; [exact Hlong|]. split; [exact Hshort|].
    intros Hne. destruct (Hbreak Hne) as (? & ? & ? & _). done.
Qed.

(** The state that the failed call leaves: the exception of [add_log], the
    timer stopped in [Work] with the counter as it was and [current_start]
    still set. *)
Example finish_session_project_deleted :
  let self := set_db (delete_project 1 (db work_done)).2 work_done in
  let r := _finish_session [Nao] 1500000000 self in
  r.1 = Raised fk_failed
  ∧ session r.2 = Work ∧ completed_cycles r.2 = 0
  ∧ is_running r.2 = false ∧ current_start r.2 = Some 0.
Proof. by vm_compute. Qed.

Lemma ids_in_store_work_done : ids_in_store work_done.
Proof. intros pid sid. vm_compute. intros [= <-] [= <-]. done. Qed.

Lemma cycle_rule_witness :
  ∃ self',
    _finish_session [Nao] 1500000000 work_done = (Returned tt, self')
    ∧ session self' = ShortBreak ∧ completed_cycles self' = 1
    ∧ remaining self' = 300.
Proof.
  destruct (cycle_rule 1500000000 work_done (λ _, ids_in_store_work_done))
    as (self' & Hrun & _ & Hshort & _).
  exists self'. split; [exact (Hrun [Nao])|]. apply Hshort; reflexivity.
Defined.



(** C4. [reset_timer], in any state and so in the middle of a work session
    too, leaves the session [Idle], the timer stopped, the counter of cycles
    at 0, the seconds left at the work setting, [current_start] cleared, and
    the store as it was: no log is written for the interval given up. *)
Theorem reset_discards_without_log self :
  ∃ self',
    reset_timer self = (Returned tt, self')
    ∧ session self' = Idle ∧ is_running self' = false
    ∧ completed_cycles self' = 0
    ∧ remaining self' = work_minutes (settings self) * 60
    ∧ current_start self' = None
    ∧ db self' = db self.
Proof.
  unfold_methods. simpl. destruct (after_id self); simpl; eauto 10.
Qed.

(** C5. For a name that is not blank, [add_project] called twice returns the
    same id both times, and the second call leaves the rows as the first
    left them, so no second row is made: a store with at most one project of
    that name has exactly one afterwards.  [add_subject] does the same for a
    project id and a name: a call that returns an id returns it again, with
    the rows unchanged, and it does return one when the project exists.
    What the second call does change is the [sqlite_sequence] entry of its
    table: the row that is skipped has taken a row id. *)
Theorem add_twice_same_id name pid d :
  strip name ≠ "" →
  (∃ id d1 d2,
      add_project name d = (Returned id, d1)
      ∧ add_project name d1 = (Returned id, d2)
      ∧ same_rows d1 d2
      ∧ ((length (filter (λ p, project_name p = strip name) (projects d))
          ≤ 1)%nat →
         length (filter (λ p, project_name p = strip name) (projects d2))
         = 1%nat))
  ∧ (∀ id d1,
       add_subject pid name d = (Returned id, d1) →
       ∃ d2, add_subject pid name d1 = (Returned id, d2) ∧ same_rows d1 d2)
  ∧ (project_exists pid d = true →
     ∃ id d1, add_subject pid name d = (Returned id, d1)
       ∧ ((length (filter (λ s, subject_project_id s = pid
                                ∧ subject_name s = strip name) (subjects d))
           ≤ 1)%nat →
          length (filter (λ s, subject_project_id s = pid
                               ∧ subject_name s = strip name) (subjects d1))
          = 1%nat)).
Proof.
  intros Hne. split; [|split].
  - destruct (add_project_valid name d Hne) as (id & Hadd & Hsel).
    eexists id, (insert_or_ignore_project (strip name) d).2, _.
    split; [done|]. split; [by apply add_project_again|].
    split; [done|]. simpl.
    intros Hle. unfold insert_or_ignore_project, select_project_id.
    pose proof (filter_count_one (λ p, project_name p = strip name)
                  (projects d)
                  {| project_id := next_rowid (seq_projects d)
                                     (project_id <$> projects d);
                     project_name := strip name |} Hle eq_refl) as Hone.
    by destruct (head _).
  - intros id d1 Hadd. apply add_subject_returned in Hadd as [_ Hsel].
    eexists. split; [by apply add_subject_again|]. done.
  - intros Hex. destruct (add_subject_valid pid name d Hne Hex)
      as (id & Hadd & Hsel).
    exists id, (insert_or_ignore_subject pid (strip name) d).2.
    split; [done|].
    intros Hle. unfold insert_or_ignore_subject, select_subject_id.
    pose proof (filter_count_one
                  (λ s, subject_project_id s = pid
                        ∧ subject_name s = strip name)
                  (subjects d)
                  {| subject_id := next_rowid (seq_subjects d)
                                     (subject_id <$> subjects d);
                     subject_project_id := pid;
                     subject_name := strip name |} Hle
                  (conj eq_refl eq_refl)) as Hone.
    destruct (head _); [done|]. by rewrite Hex.
Qed.

Lemma add_twice_same_id_witness :
  (∃ id d1 d2,
      add_project " Default" create_tables = (Returned id, d1)
      ∧ add_project " Default" d1 = (Returned id, d2)
      ∧ same_rows d1 d2
      ∧ length (filter (λ p, project_name p = "Default") (projects d2))
        = 1%nat)
  ∧ ∃ d2, add_subject 1 "Geral" db0 = (Returned 1, d2) ∧ same_rows db0 d2.
Proof.
  destruct (add_twice_same_id " Default" 1 create_tables) as [H1 _];
    [by vm_compute|].
  destruct (add_twice_same_id "Geral" 1 (add_project "Default" create_tables).2)
    as (_ & H2 & _); [by vm_compute|].
  split.
  - destruct H1 as (id & d1 & d2 & Ha & Hb & Hr & Hc). exists id, d1, d2.
    split; [done|]. split; [done|]. split; [done|]. apply Hc. vm_compute. lia.
  - apply (H2 1 db0). reflexivity.
Defined.

(** C6. In the report on the days from [start_iso] to [end_iso], both
    included, [summary_by_day] has one row for every day on which a log of
    the range starts and no other row, the row carries the sum of the
    durations of the logs that start on that day, and the rows come by
    ascending day; [summary_by_subject_range] has one row for every subject
    name of a log of the range and no other row, the row carries the sum of
    the durations of the logs of that name, and the rows come by descending
    total.  A log is in the range by the day of its start alone. *)
Theorem summaries_sum_the_range start_iso end_iso d :
  let rows := filter (in_range start_iso end_iso) (logs d) in
  let day := λ l, DATE (log_start_time l) in
  (∀ dia total,
      (dia, total) ∈ summary_by_day start_iso end_iso d
      ↔ dia ∈ day <$> rows ∧ total = total_of day dia rows)
  ∧ NoDup (summary_by_day start_iso end_iso d).*1
  ∧ StronglySorted by_day_asc (summary_by_day start_iso end_iso d)
  ∧ (∀ name total,
        (name, total) ∈ summary_by_subject_range start_iso end_iso d
        ↔ name ∈ subject_name_of d <$> rows
          ∧ total = total_of (subject_name_of d) name rows)
  ∧ NoDup (summary_by_subject_range start_iso end_iso d).*1
  ∧ StronglySorted by_total_desc
      (summary_by_subject_range start_iso end_iso d).
Proof.
  intros rows day. unfold summary_by_day, summary_by_subject_range.
  rewrite between_in_range. fold rows.
  destruct (sorted_groups_spec by_day_asc day rows) as [Hnd1 Hin1].
  destruct (sorted_groups_spec by_total_desc (subject_name_of d) rows)
    as [Hnd2 Hin2].
  split; [exact Hin1|]. split; [exact Hnd1|].
  split.
  { apply StronglySorted_merge_sort;
      [apply by_day_asc_trans|apply by_day_asc_total]. }
  split; [exact Hin2|]. split; [exact Hnd2|].
  apply StronglySorted_merge_sort;
    [apply by_total_desc_trans|apply by_total_desc_total].
Qed.

(** Three logs: two on day 10 for subject 1, one on day 12 for a subject
    whose row is gone.  Day 11 has no row, and neither has a subject without
    logs. *)
Example summaries_of_three_logs :
  let d := {| projects := projects db0; subjects := subjects db0;
              logs := [ {| log_id := 1; log_project_id := 1;
                           log_subject_id := 1; log_start_time := 864000;
                           log_end_time := 864600; log_duration := 600 |};
                        {| log_id := 2; log_project_id := 1;
                           log_subject_id := 1; log_start_time := 950399;
                           log_end_time := 951899; log_duration := 1500 |};
                        {| log_id := 3; log_project_id := 1;
                           log_subject_id := 5; log_start_time := 1036800;
                           log_end_time := 1039800; log_duration := 3000 |} ];
              seq_projects := 1; seq_subjects := 5; seq_logs := 3 |} in
  summary_by_day 10 12 d = [(10, 2100); (12, 3000)]
  ∧ summary_by_subject_range 10 12 d = [(None, 3000); (Some "Geral", 2100)]
  ∧ summary_by_day 11 11 d = [].
Proof. by vm_compute. Qed.

(** C7, as the claim has it: [add_subject] under a project id that is not in
    the store raises the foreign-key error.  It does not when the name is
    blank: the name is checked first, and the call raises [ValueError]. *)
Lemma missing_project_blank_name :
  ¬ (∀ pid name d,
       built d → project_exists pid d = false →
       add_subject pid name d = (Raised fk_failed, d)).
Proof.
  intros H. specialize (H 7 " " create_tables built_create eq_refl).
  vm_compute in H. discriminate H.
Qed.

(** C7, amended. In a store that the methods built, [add_subject] with a
    name that is not blank and a project id that is not in the store raises
    the foreign-key error and leaves the store unchanged; [add_log] with a
    project id or a subject id that is not in the store does the same. *)
Theorem missing_parent_is_rejected pid sid name start_iso end_iso dur d :
  built d →
  (strip name ≠ "" → project_exists pid d = false →
   add_subject pid name d = (Raised fk_failed, d))
  ∧ (project_exists pid d && subject_exists sid d = false →
     add_log pid sid start_iso end_iso dur d = (Raised fk_failed, d)).
Proof.
  intros Hb. split.
  - intros Hne Hex. unfold add_subject.
    rewrite bool_decide_eq_false_2 by done.
    unfold bind, insert_or_ignore_subject.
    rewrite no_project_no_subject by auto using built_fk_ok.
    by rewrite Hex.
  - intros Hex. unfold add_log. by rewrite Hex.
Qed.

Lemma built_db0 : built db0.
Proof.
  unfold db0. apply built_add_subject, built_add_project, built_create.
Qed.

Lemma missing_parent_is_rejected_witness :
  add_subject 7 "Fisica" db0 = (Raised fk_failed, db0)
  ∧ add_log 7 1 0 60 60 db0 = (Raised fk_failed, db0)
  ∧ add_log 1 9 0 60 60 db0 = (Raised fk_failed, db0).
Proof.
  destruct (missing_parent_is_rejected 7 1 "Fisica" 0 60 60 db0 built_db0)
    as [H1 H2].
  destruct (missing_parent_is_rejected 1 9 "Fisica" 0 60 60 db0 built_db0)
    as [_ H3].
  split; [apply H1; by vm_compute|].
  split; [apply H2|apply H3]; reflexivity.
Defined.

(** C8. A name that is empty once stripped, that is a name of whitespace
    only, makes [add_project] and [add_subject] raise [ValueError], and the
    store stays as it was. *)
Theorem blank_name_is_rejected name pid d :
  strip name = "" →
  add_project name d = (Raised (ValueError "Nome do projeto vazio."), d)
  ∧ add_subject pid name d
    = (Raised (ValueError "Nome da matéria vazio."), d).
Proof.
  intros Hblank. unfold add_project, add_subject.
  by rewrite !bool_decide_eq_true_2 by done.
Qed.

Lemma blank_name_is_rejected_witness :
  add_project "   " db0 = (Raised (ValueError "Nome do projeto vazio."), db0)
  ∧ add_subject 1 "" db0
    = (Raised (ValueError "Nome da matéria vazio."), db0).
Proof.
  split.
  - apply (blank_name_is_rejected "   " 1 db0). reflexivity.
  - apply (blank_name_is_rejected "" 1 db0). reflexivity.
Defined.




(** C10. [start] on a running timer returns at once: the whole state, and
    with it the session, the seconds left, the counter of cycles,
    [current_start], the selection and the store, is unchanged. *)
Theorem start_while_running replies now self :
  is_running self = true → start replies now self = (Returned tt, self).
Proof. intros Hrun. unfold_methods. by rewrite Hrun. Qed.

Lemma start_while_running_witness :
  start [Sim 5] 7000000 working = (Returned tt, working).
Proof.
  apply (start_while_running [Sim 5] 7000000 working). by vm_compute.
Defined.

(** * The rest of the code *)

(** ** [strip] once more *)

Lemma rstrip_cons c s :
  rstrip (String c s)
  = if bool_decide (rstrip s = "") && isspace c then ""
    else String c (rstrip s).
Proof.
  simpl. destruct (rstrip s) eqn:E; simpl; [|done]. by destruct (isspace c).
Qed.

Lemma rstrip_idemp s : rstrip (rstrip s) = rstrip s.
Proof.
  induction s as [|c s IH]; [done|]. rewrite rstrip_cons.
  destruct (bool_decide (rstrip s = "") && isspace c) eqn:E; [done|].
  rewrite rstrip_cons, IH, E. done.
Qed.

Lemma lstrip_head c s : isspace c = false → lstrip (String c s) = String c s.
Proof. intros H. simpl. by rewrite H. Qed.

Lemma lstrip_starts s :
  lstrip s = "" ∨ ∃ c s', lstrip s = String c s' ∧ isspace c = false.
Proof.
  induction s as [|c s IH]; simpl; [by left|].
  destruct (isspace c) eqn:E; [done|]. right. eauto.
Qed.

(** Stripping a stripped text changes nothing. *)
Lemma strip_idemp s : strip (strip s) = strip s.
Proof.
  unfold strip. destruct (lstrip_starts s) as [->|(c & s' & -> & Hc)]; [done|].
  rewrite rstrip_cons.
  destruct (bool_decide (rstrip s' = "") && isspace c) eqn:E; [done|].
  rewrite lstrip_head by done.
  rewrite rstrip_cons, rstrip_idemp, E. done.
Qed.

Lemma stored_name_strip name : strip name ≠ "" → stored_name (strip name).
Proof. intros H. split; [done|apply strip_idemp]. Qed.

(** ** What each method does to the tables *)

Lemma max_rowid_ge (ids : list Z) i : i ∈ ids → i ≤ max_rowid ids.
Proof.
  unfold max_rowid. induction ids as [|j ids IH]; simpl.
  - by intros ?%elem_of_nil.
  - intros [->|Hin]%elem_of_cons; [lia|]. specialize (IH Hin). lia.
Qed.

Lemma next_rowid_fresh seq (ids : list Z) :
  seq < next_rowid seq ids ∧ ∀ i, i ∈ ids → i < next_rowid seq ids.
Proof.
  unfold next_rowid. split; [lia|].
  intros i Hi%max_rowid_ge. lia.
Qed.

Lemma keys_ok_snoc seq (ids : list Z) :
  keys_ok seq ids →
  keys_ok (next_rowid seq ids) (ids ++ [next_rowid seq ids]).
Proof.
  intros (Hseq & Hnd & Hrange).
  destruct (next_rowid_fresh seq ids) as [Hlt Hfresh].
  split; [lia|]. split.
  - apply NoDup_app. split; [done|]. split; [|apply NoDup_singleton].
    intros i Hi ->%list_elem_of_singleton. specialize (Hfresh _ Hi). lia.
  - intros i [Hi| ->%list_elem_of_singleton]%elem_of_app; [|lia].
    specialize (Hrange _ Hi). lia.
Qed.

Lemma keys_ok_filter {A} (f : A → Z) (P : A → Prop) `{∀ x, Decision (P x)}
    seq (rows : list A) :
  keys_ok seq (f <$> rows) → keys_ok seq (f <$> filter P rows).
Proof.
  intros (Hseq & Hnd & Hrange). split; [done|]. split.
  - eapply sublist_NoDup; [done|]. apply fmap_sublist, sublist_filter.
  - intros i (x & -> & [_ Hx]%list_elem_of_filter)%list_elem_of_fmap.
    apply Hrange, list_elem_of_fmap. eauto.
Qed.

Lemma keys_ok_skip seq (ids : list Z) :
  keys_ok seq ids → keys_ok (next_rowid seq ids) ids.
Proof.
  intros (Hseq & Hnd & Hrange).
  destruct (next_rowid_fresh seq ids) as [Hlt Hfresh].
  split; [lia|]. split; [done|].
  intros i Hi. specialize (Hrange _ Hi). lia.
Qed.

Lemma filter_all {A} (P : A → Prop) `{∀ x, Decision (P x)} (l : list A) :
  (∀ x, x ∈ l → P x) → filter P l = l.
Proof.
  induction l as [|x l IH]; [done|]. intros Hall.
  rewrite filter_cons, decide_True by (apply Hall; left).
  f_equal. apply IH. intros y Hy. apply Hall. by right.
Qed.

Lemma filter_none {A} (P : A → Prop) `{∀ x, Decision (P x)} (l : list A) :
  (∀ x, x ∈ l → ¬ P x) → filter P l = [].
Proof.
  induction l as [|x l IH]; [done|]. intros Hall.
  rewrite filter_cons, decide_False by (apply Hall; left).
  apply IH. intros y Hy. apply Hall. by right.
Qed.

(** [add_project] refuses a blank name and leaves the store alone, or finds
    the name and only takes a row id, or appends one project, under a new
    id and a stored name that no project had. *)
Lemma add_project_cases name d :
  (add_project name d).2 = d
  ∨ strip name ∈ project_name <$> projects d
    ∧ (add_project name d).2
      = {| projects := projects d; subjects := subjects d; logs := logs d;
           seq_projects := next_rowid (seq_projects d)
                             (project_id <$> projects d);
           seq_subjects := seq_subjects d; seq_logs := seq_logs d |}
  ∨ strip name ≠ ""
    ∧ (strip name ∉ project_name <$> projects d)
    ∧ (add_project name d).2
      = {| projects :=
             projects d
             ++ [ {| project_id := next_rowid (seq_projects d)
                                     (project_id <$> projects d);
                     project_name := strip name |} ];
           subjects := subjects d; logs := logs d;
           seq_projects := next_rowid (seq_projects d)
                             (project_id <$> projects d);
           seq_subjects := seq_subjects d; seq_logs := seq_logs d |}.
Proof.
  unfold add_project. case_bool_decide as Hne; [by left|].
  unfold bind, get, insert_or_ignore_project, select_project_id.
  destruct (filter _ (projects d)) as [|p l] eqn:E; simpl.
  - right. right. rewrite row0_store. split; [done|]. split; [|done].
    intros (p & Hp & Hin)%list_elem_of_fmap.
    eapply (filter_nil_not_elem_of _ _ p E); done.
  - right. left. rewrite row0_store. split; [|done].
    assert (p ∈ filter (λ p0, project_name p0 = strip name) (projects d))
      as [Hp Hin]%list_elem_of_filter by (rewrite E; left).
    apply list_elem_of_fmap. eauto.
Qed.

Lemma add_subject_cases pid name d :
  (add_subject pid name d).2 = d
  ∨ (pid, strip name)
    ∈ (λ s, (subject_project_id s, subject_name s)) <$> subjects d
    ∧ (add_subject pid name d).2
      = {| projects := projects d; subjects := subjects d; logs := logs d;
           seq_projects := seq_projects d;
           seq_subjects := next_rowid (seq_subjects d)
                             (subject_id <$> subjects d);
           seq_logs := seq_logs d |}
  ∨ strip name ≠ ""
    ∧ project_exists pid d = true
    ∧ ((pid, strip name)
       ∉ (λ s, (subject_project_id s, subject_name s)) <$> subjects d)
    ∧ (add_subject pid name d).2
      = {| projects := projects d;
           subjects :=
             subjects d
             ++ [ {| subject_id := next_rowid (seq_subjects d)
                                     (subject_id <$> subjects d);
                     subject_project_id := pid;
                     subject_name := strip name |} ];
           logs := logs d;
           seq_projects := seq_projects d;
           seq_subjects := next_rowid (seq_subjects d)
                             (subject_id <$> subjects d);
           seq_logs := seq_logs d |}.
Proof.
  unfold add_subject. case_bool_decide as Hne; [by left|].
  unfold bind, get, insert_or_ignore_subject, select_subject_id.
  destruct (filter _ (subjects d)) as [|s l] eqn:E; simpl.
  - destruct (project_exists pid d) eqn:Hex; simpl; [|by left].
    right. right. rewrite row0_store.
    split; [done|]. split; [done|]. split; [|done].
    intros (s & [= Hp Hn] & Hin)%list_elem_of_fmap.
    eapply (filter_nil_not_elem_of _ _ s E); done.
  - right. left. rewrite row0_store. split; [|done].
    assert (s ∈ filter (λ s0, subject_project_id s0 = pid
                              ∧ subject_name s0 = strip name) (subjects d))
      as [[Hp Hn] Hin]%list_elem_of_filter by (rewrite E; left).
    apply list_elem_of_fmap. exists s. by rewrite Hp, Hn.
Qed.

Lemma add_log_cases pid sid t1 t2 dur d :
  (add_log pid sid t1 t2 dur d = (Raised fk_failed, d)
   ∧ project_exists pid d && subject_exists sid d = false)
  ∨ project_exists pid d = true ∧ subject_exists sid d = true
    ∧ add_log pid sid t1 t2 dur d
      = (Returned (next_rowid (seq_logs d) (log_id <$> logs d)),
         {| projects := projects d; subjects := subjects d;
            logs := logs d
                    ++ [ {| log_id := next_rowid (seq_logs d)
                                        (log_id <$> logs d);
                            log_project_id := pid; log_subject_id := sid;
                            log_start_time := t1; log_end_time := t2;
                            log_duration := dur |} ];
            seq_projects := seq_projects d;
            seq_subjects := seq_subjects d;
            seq_logs := next_rowid (seq_logs d) (log_id <$> logs d) |}).
Proof.
  unfold add_log.
  destruct (project_exists pid d) eqn:Hp, (subject_exists sid d) eqn:Hs;
    simpl; auto.
Qed.

(** [delete_project] without a row of the id leaves the store alone; with
    one, the project goes, its subjects go, and so do the logs of the
    project and of those subjects. *)
Lemma delete_project_cases pid d :
  project_exists pid d = false ∧ (delete_project pid d).2 = d
  ∨ project_exists pid d = true
    ∧ (delete_project pid d).2
      = {| projects := filter (λ p, project_id p ≠ pid) (projects d);
           subjects :=
             filter (λ s, subject_project_id s ≠ pid) (subjects d);
           logs :=
             filter (λ l, log_project_id l ≠ pid
                          ∧ (log_subject_id l
                             ∉ subject_id
                                 <$> filter (λ s, subject_project_id s = pid)
                                       (subjects d)))
               (logs d);
           seq_projects := seq_projects d;
           seq_subjects := seq_subjects d;
           seq_logs := seq_logs d |}.
Proof.
  unfold project_exists. case_bool_decide as Hex; [right|left];
    (split; [done|]); simpl.
  - assert (filter (λ s, subject_project_id s
                         ∈ project_id
                             <$> filter (λ p, project_id p = pid) (projects d))
              (subjects d)
            = filter (λ s, subject_project_id s = pid) (subjects d)) as ->.
    { apply list_filter_iff. intros s. rewrite elem_of_gone. tauto. }
    f_equal; apply list_filter_iff; intros x; rewrite elem_of_gone; tauto.
  - assert (filter (λ p, project_id p = pid) (projects d) = []) as ->.
    { apply filter_none. intros p Hp Heq.
      apply Hex, list_elem_of_fmap. eauto. }
    destruct d as [ps ss ls a b c]. simpl in *. f_equal.
    + apply filter_all. intros p Hp Heq. apply Hex, list_elem_of_fmap. eauto.
    + apply filter_all. intros s _. apply not_elem_of_nil.
    + apply filter_all. intros l _. split; [apply not_elem_of_nil|].
      rewrite filter_none; [apply not_elem_of_nil|].
      intros s _. apply not_elem_of_nil.
Qed.

Lemma delete_subject_cases sid d :
  subject_exists sid d = false ∧ (delete_subject sid d).2 = d
  ∨ subject_exists sid d = true
    ∧ (delete_subject sid d).2
      = {| projects := projects d;
           subjects := filter (λ s, subject_id s ≠ sid) (subjects d);
           logs := filter (λ l, log_subject_id l ≠ sid) (logs d);
           seq_projects := seq_projects d;
           seq_subjects := seq_subjects d;
           seq_logs := seq_logs d |}.
Proof.
  unfold subject_exists. case_bool_decide as Hex; [right|left];
    (split; [done|]); simpl.
  - f_equal. apply list_filter_iff. intros l. rewrite elem_of_gone. tauto.
  - destruct d as [ps ss ls a b c]. simpl in *. f_equal.
    + apply filter_all. intros s Hs Heq. apply Hex, list_elem_of_fmap. eauto.
    + apply filter_all. intros l _. rewrite elem_of_gone. tauto.
Qed.

(** A store with rows whose parents are missing, as only a connection
    without [PRAGMA foreign_keys = ON] can leave it: a [DELETE] that finds
    no row takes nothing, and one that finds its row takes what hangs on
    that row. *)
Example delete_among_orphans :
  let d := {| projects := [ {| project_id := 1; project_name := "P" |} ];
              subjects := [ {| subject_id := 1; subject_project_id := 9;
                               subject_name := "orph" |};
                            {| subject_id := 2; subject_project_id := 1;
                               subject_name := "s" |} ];
              logs := [ {| log_id := 1; log_project_id := 9;
                           log_subject_id := 1; log_start_time := 0;
                           log_end_time := 1; log_duration := 1 |};
                        {| log_id := 2; log_project_id := 1;
                           log_subject_id := 5; log_start_time := 0;
                           log_end_time := 1; log_duration := 1 |};
                        {| log_id := 3; log_project_id := 7;
                           log_subject_id := 2; log_start_time := 0;
                           log_end_time := 1; log_duration := 1 |} ];
              seq_projects := 1; seq_subjects := 2; seq_logs := 3 |} in
  (delete_project 9 d).2 = d
  ∧ (delete_subject 5 d).2 = d
  ∧ log_id <$> logs (delete_project 1 d).2 = [1]
  ∧ subject_id <$> subjects (delete_project 1 d).2 = [1].
Proof. by vm_compute. Qed.

(** ** The schema holds in every store *)

Lemma schema_create : schema create_tables.
Proof.
  split; simpl; try (split; [done|split; [apply NoDup_nil_2|]]);
    try apply NoDup_nil_2; try (intros ? ?%elem_of_nil; done).
Qed.

Lemma schema_add_project name d : schema d → schema (add_project name d).2.
Proof.
  intros Hd.
  destruct (add_project_cases name d) as [->|[[_ ->]|(Hne & Hnew & ->)]];
    [done|..];
    destruct Hd as [Hpk Hsk Hlk Hpu Hsu Hpn Hsn Hsfk Hlfk].
  { split; simpl; try done. by apply keys_ok_skip. }
  split; simpl; try done.
  - rewrite fmap_app. simpl. by apply keys_ok_snoc.
  - rewrite fmap_app. simpl. apply NoDup_app. split; [done|].
    split; [|apply NoDup_singleton].
    intros n Hn ->%list_elem_of_singleton. done.
  - intros p [Hp| ->%list_elem_of_singleton]%elem_of_app; [by apply Hpn|].
    by apply stored_name_strip.
  - intros s Hs. simpl. rewrite fmap_app, elem_of_app. left. by apply Hsfk.
  - intros l Hl. simpl. rewrite fmap_app, elem_of_app.
    destruct (Hlfk l Hl). auto.
Qed.

Lemma schema_add_subject pid name d :
  schema d → schema (add_subject pid name d).2.
Proof.
  intros Hd.
  destruct (add_subject_cases pid name d)
    as [->|[[_ ->]|(Hne & Hex & Hnew & ->)]]; [done|..];
    destruct Hd as [Hpk Hsk Hlk Hpu Hsu Hpn Hsn Hsfk Hlfk].
  { split; simpl; try done. by apply keys_ok_skip. }
  split; simpl; try done.
  - rewrite fmap_app. simpl. by apply keys_ok_snoc.
  - rewrite fmap_app. simpl. apply NoDup_app. split; [done|].
    split; [|apply NoDup_singleton].
    intros n Hn ->%list_elem_of_singleton. done.
  - intros s [Hs| ->%list_elem_of_singleton]%elem_of_app; [by apply Hsn|].
    by apply stored_name_strip.
  - intros s [Hs| ->%list_elem_of_singleton]%elem_of_app; simpl;
      [by apply Hsfk|].
    unfold project_exists in Hex. by apply bool_decide_eq_true in Hex.
  - intros l Hl. simpl. rewrite fmap_app, elem_of_app.
    destruct (Hlfk l Hl). auto.
Qed.

Lemma schema_add_log pid sid t1 t2 dur d :
  schema d → schema (add_log pid sid t1 t2 dur d).2.
Proof.
  intros Hd.
  destruct (add_log_cases pid sid t1 t2 dur d) as [[-> _]|(Hp & Hs & ->)];
    [done|].
  destruct Hd as [Hpk Hsk Hlk Hpu Hsu Hpn Hsn Hsfk Hlfk].
  split; simpl; try done.
  - rewrite fmap_app. simpl. by apply keys_ok_snoc.
  - intros l [Hl| ->%list_elem_of_singleton]%elem_of_app; simpl;
      [by apply Hlfk|].
    unfold project_exists, subject_exists in *.
    apply bool_decide_eq_true in Hp, Hs. done.
Qed.

Lemma schema_delete_project pid d :
  schema d → schema (delete_project pid d).2.
Proof.
  intros Hd. destruct (delete_project_cases pid d) as [[_ ->]|[_ ->]];
    [done|].
  destruct Hd as [Hpk Hsk Hlk Hpu Hsu Hpn Hsn Hsfk Hlfk].
  split; simpl; try by apply keys_ok_filter.
  - eapply sublist_NoDup; [done|]. apply fmap_sublist, sublist_filter.
  - eapply sublist_NoDup; [done|]. apply fmap_sublist, sublist_filter.
  - intros p [_ Hp]%list_elem_of_filter. by apply Hpn.
  - intros s [_ Hs]%list_elem_of_filter. by apply Hsn.
  - intros s [Hne Hs]%list_elem_of_filter. simpl.
    apply Hsfk, list_elem_of_fmap in Hs as (p & Hp & Hin).
    apply list_elem_of_fmap. exists p. split; [done|].
    apply list_elem_of_filter. split; [congruence|done].
  - intros l [[Hne Hsub] Hl]%list_elem_of_filter.
    destruct (Hlfk l Hl) as [Hp Hs]. split.
    + apply list_elem_of_fmap in Hp as (p & Hp & Hin).
      apply list_elem_of_fmap. exists p. split; [done|].
      apply list_elem_of_filter. split; [congruence|done].
    + apply list_elem_of_fmap in Hs as (s & Hs & Hin).
      apply list_elem_of_fmap. exists s. split; [done|].
      apply list_elem_of_filter. split; [|done].
      intros Hpid. apply Hsub. rewrite Hs. apply list_elem_of_fmap.
      exists s. split; [done|]. apply list_elem_of_filter. done.
Qed.

Lemma schema_delete_subject sid d :
  schema d → schema (delete_subject sid d).2.
Proof.
  intros Hd. destruct (delete_subject_cases sid d) as [[_ ->]|[_ ->]];
    [done|].
  destruct Hd as [Hpk Hsk Hlk Hpu Hsu Hpn Hsn Hsfk Hlfk].
  split; simpl; try done; try by apply keys_ok_filter.
  - eapply sublist_NoDup; [done|]. apply fmap_sublist, sublist_filter.
  - intros s [_ Hs]%list_elem_of_filter. by apply Hsn.
  - intros s [_ Hs]%list_elem_of_filter. simpl. by apply Hsfk.
  - intros l [Hne Hl]%list_elem_of_filter.
    destruct (Hlfk l Hl) as [Hp Hs]. split; [done|].
    apply list_elem_of_fmap in Hs as (s & Hs & Hin).
    apply list_elem_of_fmap. exists s. split; [done|].
    apply list_elem_of_filter. split; [congruence|done].
Qed.

Lemma schema_of_built d : built d → schema d.
Proof.
  induction 1; auto using schema_create, schema_add_project,
    schema_add_subject, schema_add_log, schema_delete_project,
    schema_delete_subject.
Qed.

(** X1. Every store that the methods build satisfies the schema: ids are
    distinct, positive and not above their [sqlite_sequence] entry, project
    names are distinct, subject names are distinct within a project, names
    are stripped and not empty, every subject has its project and every log
    has its project and its subject. *)
Theorem built_schema d : built d → schema d.
Proof. exact (schema_of_built d). Qed.

Lemma built_schema_witness : schema db0.
Proof.
  apply (built_schema db0).
  unfold db0. apply built_add_subject, built_add_project, built_create.
Defined.

(** ** Ids are never given twice *)

Lemma built_later d d' : built d → later d d' → built d'.
Proof. induction 2; [done|by constructor..]. Qed.

Lemma later_seq d d' :
  later d d' →
  seq_projects d ≤ seq_projects d' ∧ seq_subjects d ≤ seq_subjects d'
  ∧ seq_logs d ≤ seq_logs d'.
Proof.
  induction 1 as [|name d' _ IH|pid name d' _ IH|pid d' _ IH|sid d' _ IH
                 |pid sid t1 t2 dur d' _ IH]; [lia|..]; try done.
  - destruct (add_project_cases name d') as [->|[[_ ->]|(_ & _ & ->)]];
      [done|..]; simpl;
      destruct (next_rowid_fresh (seq_projects d')
                  (project_id <$> projects d')); lia.
  - destruct (add_subject_cases pid name d')
      as [->|[[_ ->]|(_ & _ & _ & ->)]]; [done|..]; simpl;
      destruct (next_rowid_fresh (seq_subjects d')
                  (subject_id <$> subjects d')); lia.
  - destruct (add_log_cases pid sid t1 t2 dur d') as [[-> _]|(_ & _ & ->)];
      [done|].
    simpl. destruct (next_rowid_fresh (seq_logs d') (log_id <$> logs d')).
    lia.
Qed.

(** X2. [AUTOINCREMENT]: the id that [add_project] gives to a new project,
    [add_subject] to a new subject and [add_log] to a log is greater than
    the id of every row that its table held at any earlier moment, rows
    deleted since then included. *)
Theorem ids_never_reused d d' :
  built d → later d d' →
  (∀ name id d'' p,
      strip name ∉ project_name <$> projects d' →
      add_project name d' = (Returned id, d'') →
      p ∈ projects d → project_id p < id)
  ∧ (∀ pid name id d'' s,
        (pid, strip name)
        ∉ (λ s, (subject_project_id s, subject_name s)) <$> subjects d' →
        add_subject pid name d' = (Returned id, d'') →
        s ∈ subjects d → subject_id s < id)
  ∧ (∀ pid sid t1 t2 dur id d'' l,
        add_log pid sid t1 t2 dur d' = (Returned id, d'') →
        l ∈ logs d → log_id l < id).
Proof.
  intros Hb Hl. destruct (later_seq d d' Hl) as (Hsp & Hss & Hsl).
  destruct (schema_of_built d Hb) as [Hpk Hsk Hlk _ _ _ _ _ _].
  split; [|split].
  - intros name id d'' p Hnew Hadd Hp.
    destruct Hpk as (_ & _ & Hr).
    specialize (Hr (project_id p)
                  ltac:(apply list_elem_of_fmap; by exists p)).
    unfold add_project in Hadd. case_bool_decide; [done|].
    unfold bind, get, insert_or_ignore_project, select_project_id in Hadd.
    destruct (filter _ (projects d')) as [|q l] eqn:E; simpl in Hadd.
    + rewrite head_filter_snoc, E in Hadd. simpl in Hadd.
      rewrite decide_True in Hadd by done. injection Hadd as <- _.
      destruct (next_rowid_fresh (seq_projects d')
                  (project_id <$> projects d')). lia.
    + exfalso. apply Hnew. apply list_elem_of_fmap. exists q.
      assert (q ∈ filter (λ p0, project_name p0 = strip name) (projects d'))
        as [Hq ?]%list_elem_of_filter by (rewrite E; left). done.
  - intros pid name id d'' s Hnew Hadd Hs.
    destruct Hsk as (_ & _ & Hr).
    specialize (Hr (subject_id s)
                  ltac:(apply list_elem_of_fmap; by exists s)).
    unfold add_subject in Hadd. case_bool_decide; [done|].
    unfold bind, get, insert_or_ignore_subject, select_subject_id in Hadd.
    destruct (filter _ (subjects d')) as [|q l] eqn:E; simpl in Hadd.
    + destruct (project_exists pid d'); [|done]. simpl in Hadd.
      rewrite head_filter_snoc, E in Hadd. simpl in Hadd.
      rewrite decide_True in Hadd by done. injection Hadd as <- _.
      destruct (next_rowid_fresh (seq_subjects d')
                  (subject_id <$> subjects d')). lia.
    + exfalso. apply Hnew. apply list_elem_of_fmap. exists q.
      assert (q ∈ filter (λ s0, subject_project_id s0 = pid
                                ∧ subject_name s0 = strip name) (subjects d'))
        as [[Hq1 Hq2] ?]%list_elem_of_filter by (rewrite E; left).
      split; [by rewrite Hq1, Hq2|done].
  - intros pid sid t1 t2 dur id d'' l Hadd Hin.
    destruct Hlk as (_ & _ & Hr).
    specialize (Hr (log_id l) ltac:(apply list_elem_of_fmap; by exists l)).
    destruct (add_log_cases pid sid t1 t2 dur d') as [[E _]|(_ & _ & E)];
      rewrite E in Hadd; [done|]. injection Hadd as <- _.
    destruct (next_rowid_fresh (seq_logs d') (log_id <$> logs d')). lia.
Qed.

Lemma ids_never_reused_witness :
  (add_project "Novo" (delete_project 1 db0).2).1 = Returned 2
  ∧ project_id {| project_id := 1; project_name := "Default" |} < 2.
Proof.
  split; [reflexivity|].
  destruct (ids_never_reused db0 (delete_project 1 db0).2 built_db0
              (later_delete_project _ 1 _ (later_now _))) as [H _].
  apply (H "Novo" 2 (add_project "Novo" (delete_project 1 db0).2).2);
    [vm_compute; apply not_elem_of_nil|reflexivity|vm_compute; left].
Defined.

(** ** Finding a row again *)

Lemma head_filter_unique {A K} `{EqDecision K} (f : A → K) (l : list A) x :
  NoDup (f <$> l) → x ∈ l → head (filter (λ y, f y = f x) l) = Some x.
Proof.
  induction l as [|y l IH]; [by intros _ ?%elem_of_nil|].
  rewrite fmap_cons, NoDup_cons. intros [Hy Hnd] [->|Hx]%elem_of_cons.
  - by rewrite filter_cons, decide_True.
  - rewrite filter_cons, decide_False; [by apply IH|].
    intros Heq. apply Hy. rewrite Heq. apply list_elem_of_fmap. eauto.
Qed.

Lemma next_rowid_keys_ok seq (ids : list Z) :
  keys_ok seq ids → next_rowid seq ids = seq + 1.
Proof.
  intros (Hseq & _ & Hrange). unfold next_rowid, max_rowid.
  assert (foldr Z.max 0 ids ≤ seq) as Hle; [|lia].
  induction ids as [|i ids IH]; simpl; [done|].
  pose proof (Hrange i ltac:(left)).
  assert (foldr Z.max 0 ids ≤ seq); [|lia].
  apply IH. intros j Hj. apply Hrange. by right.
Qed.

(** X3. In a store that the methods built, every row is found again by what
    it was created with: [add_project] with the name of a project returns
    the id of that project, [add_subject] with the project id and the name
    of a subject returns the id of that subject.  Neither changes a row of
    any table; what changes is the [sqlite_sequence] entry of the table,
    which goes up by one for the row id that the skipped row has taken. *)
Theorem stored_rows_are_found d :
  built d →
  (∀ p, p ∈ projects d →
        ∃ d', add_project (project_name p) d = (Returned (project_id p), d')
              ∧ same_rows d d'
              ∧ seq_projects d' = seq_projects d + 1
              ∧ seq_subjects d' = seq_subjects d
              ∧ seq_logs d' = seq_logs d)
  ∧ (∀ s, s ∈ subjects d →
          ∃ d', add_subject (subject_project_id s) (subject_name s) d
                = (Returned (subject_id s), d')
                ∧ same_rows d d'
                ∧ seq_projects d' = seq_projects d
                ∧ seq_subjects d' = seq_subjects d + 1
                ∧ seq_logs d' = seq_logs d).
Proof.
  intros Hb.
  destruct (schema_of_built d Hb) as [Hpk Hsk _ Hpu Hsu Hpn Hsn _ _].
  split.
  - intros p Hp. destruct (Hpn p Hp) as [Hne Hstrip].
    eexists. split.
    { apply add_project_again; rewrite Hstrip; [done|].
      unfold select_project_id.
      by rewrite (head_filter_unique project_name (projects d) p). }
    split; [done|]. simpl. by rewrite next_rowid_keys_ok.
  - intros s Hs. destruct (Hsn s Hs) as [Hne Hstrip].
    eexists. split.
    { apply add_subject_again; rewrite Hstrip; [done|].
      unfold select_subject_id.
      rewrite (list_filter_iff _
                 (λ y, (subject_project_id y, subject_name y)
                       = (subject_project_id s, subject_name s))).
      + by rewrite (head_filter_unique
                      (λ s, (subject_project_id s, subject_name s))
                      (subjects d) s).
      + intros y. split; [by intros [-> ->]|by intros [= -> ->]]. }
    split; [done|]. simpl. by rewrite next_rowid_keys_ok.
Qed.

Lemma stored_rows_are_found_witness :
  (∃ d', add_project "Default" db0 = (Returned 1, d')
         ∧ same_rows db0 d' ∧ seq_projects d' = 2)
  ∧ (∃ d', add_subject 1 "Geral" db0 = (Returned 1, d')
           ∧ same_rows db0 d' ∧ seq_subjects d' = 2).
Proof.
  destruct (stored_rows_are_found db0 built_db0) as [H1 H2]. split.
  - destruct (H1 {| project_id := 1; project_name := "Default" |})
      as (d' & Hadd & Hrows & Hseq & _); [vm_compute; left|].
    exists d'. split; [exact Hadd|]. split; [exact Hrows|exact Hseq].
  - destruct (H2 {| subject_id := 1; subject_project_id := 1;
                    subject_name := "Geral" |})
      as (d' & Hadd & Hrows & _ & Hseq & _); [vm_compute; left|].
    exists d'. split; [exact Hadd|]. split; [exact Hrows|exact Hseq].
Defined.

(** The row id that a skipped row has taken is not given again: after
    "Default" twice, the next project has the id 3. *)
Example skipped_row_takes_an_id :
  let d := (add_project "Default" (add_project "Default" create_tables).2).2
  in
  project_id <$> projects d = [1] ∧ seq_projects d = 2
  ∧ (add_project "B" d).1 = Returned 3.
Proof. by vm_compute. Qed.

(** ** Deleting *)

Lemma delete_project_gone pid d :
  project_exists pid (delete_project pid d).2 = false.
Proof.
  unfold project_exists. apply bool_decide_eq_false. simpl.
  intros (p & Hp & [Hne _]%list_elem_of_filter)%list_elem_of_fmap.
  congruence.
Qed.

Lemma filter_snoc_out {A} (P : A → Prop) `{∀ x, Decision (P x)}
    (l : list A) x :
  (∀ y, y ∈ l → P y) → ¬ P x → filter P (l ++ [x])%list = l.
Proof.
  intros Hall Hx.
  rewrite filter_app, filter_all, filter_cons, decide_False by done.
  by rewrite filter_nil, app_nil_r.
Qed.

(** A new row of [projects]. *)
Lemma add_project_new name d :
  strip name ≠ "" → (strip name ∉ project_name <$> projects d) →
  add_project name d
  = (Returned (next_rowid (seq_projects d) (project_id <$> projects d)),
     {| projects :=
          projects d
          ++ [ {| project_id := next_rowid (seq_projects d)
                                  (project_id <$> projects d);
                  project_name := strip name |} ];
        subjects := subjects d; logs := logs d;
        seq_projects := next_rowid (seq_projects d)
                          (project_id <$> projects d);
        seq_subjects := seq_subjects d; seq_logs := seq_logs d |}).
Proof.
  intros Hne Hnew. unfold add_project. rewrite bool_decide_eq_false_2 by done.
  unfold bind, get, insert_or_ignore_project, select_project_id.
  rewrite filter_none; simpl.
  - rewrite filter_app, filter_none, filter_cons, decide_True; [done..|].
    intros p Hp Heq. apply Hnew, list_elem_of_fmap. eauto.
  - intros p Hp Heq. apply Hnew, list_elem_of_fmap. eauto.
Qed.

(** A new row of [subjects]. *)
Lemma add_subject_new pid name d :
  strip name ≠ "" → project_exists pid d = true →
  ((pid, strip name)
   ∉ (λ s, (subject_project_id s, subject_name s)) <$> subjects d) →
  add_subject pid name d
  = (Returned (next_rowid (seq_subjects d) (subject_id <$> subjects d)),
     {| projects := projects d;
        subjects :=
          subjects d
          ++ [ {| subject_id := next_rowid (seq_subjects d)
                                  (subject_id <$> subjects d);
                  subject_project_id := pid;
                  subject_name := strip name |} ];
        logs := logs d;
        seq_projects := seq_projects d;
        seq_subjects := next_rowid (seq_subjects d)
                          (subject_id <$> subjects d);
        seq_logs := seq_logs d |}).
Proof.
  intros Hne Hex Hnew. unfold add_subject.
  rewrite bool_decide_eq_false_2 by done.
  assert (∀ s, s ∈ subjects d →
               ¬ (subject_project_id s = pid ∧ subject_name s = strip name))
    as Hno.
  { intros s Hs [Hp Hn]. apply Hnew, list_elem_of_fmap.
    exists s. by rewrite Hp, Hn. }
  unfold bind, get, insert_or_ignore_subject, select_subject_id.
  rewrite filter_none by done. simpl. rewrite Hex. simpl.
  by rewrite filter_app, filter_none, filter_cons, decide_True.
Qed.

(** X4. Deleting a project undoes what was made under it.  On a store that
    the methods built, a project under a new name, a subject of it and a
    log of the two are added; [delete_project] on the project then leaves
    the rows of the three tables as they were at the start: the cascade
    takes the subject and the log with the project, and takes nothing
    else. *)
Theorem delete_project_undoes name sname t1 t2 dur d :
  built d →
  strip name ≠ "" → strip sname ≠ "" →
  (strip name ∉ project_name <$> projects d) →
  ∃ pid sid lid d1 d2 d3,
    add_project name d = (Returned pid, d1)
    ∧ add_subject pid sname d1 = (Returned sid, d2)
    ∧ add_log pid sid t1 t2 dur d2 = (Returned lid, d3)
    ∧ length (logs d3) = S (length (logs d))
    ∧ same_rows d (delete_project pid d3).2.
Proof.
  intros Hb Hne Hsne Hnew.
  destruct (schema_of_built d Hb) as [Hpk Hsk _ _ _ _ _ Hsfk Hlfk].
  set (pid := next_rowid (seq_projects d) (project_id <$> projects d)).
  set (sid := next_rowid (seq_subjects d) (subject_id <$> subjects d)).
  assert (∀ i, i ∈ project_id <$> projects d → i ≠ pid) as Hpfresh.
  { intros i Hi. destruct (next_rowid_fresh (seq_projects d)
                             (project_id <$> projects d)) as [_ Hf].
    specialize (Hf i Hi). subst pid. lia. }
  assert (∀ i, i ∈ subject_id <$> subjects d → i ≠ sid) as Hsfresh.
  { intros i Hi. destruct (next_rowid_fresh (seq_subjects d)
                             (subject_id <$> subjects d)) as [_ Hf].
    specialize (Hf i Hi). subst sid. lia. }
  eexists pid, sid, _, _, _, _.
  split; [by apply add_project_new|].
  split.
  { apply add_subject_new; [done| |].
    - unfold project_exists. apply bool_decide_eq_true. simpl.
      rewrite fmap_app. apply elem_of_app. right. left.
    - simpl. intros (s & [= Hp _] & Hs)%list_elem_of_fmap.
      by apply (Hpfresh (subject_project_id s)); [apply Hsfk|]. }
  split.
  { unfold add_log, project_exists, subject_exists. simpl.
    rewrite !bool_decide_eq_true_2; [done|..]; rewrite fmap_app;
      apply elem_of_app; right; left. }
  split; [simpl; by rewrite length_app, Nat.add_1_r|].
  match goal with
  | |- same_rows _ (delete_project _ ?x).2 =>
      destruct (delete_project_cases pid x) as [[Hex _]|[_ Hdel]]
  end.
  { apply bool_decide_eq_false in Hex. exfalso. apply Hex. simpl.
    rewrite fmap_app. apply elem_of_app. right. left. }
  rewrite Hdel. unfold same_rows. simpl.
  split; [|split]; apply filter_snoc_out; simpl.
  - intros p Hp Heq. apply (Hpfresh (project_id p)); [|done].
    apply list_elem_of_fmap. eauto.
  - intros H. by apply H.
  - intros s Hs Heq. by apply (Hpfresh (subject_project_id s)); [apply Hsfk|].
  - intros H. by apply H.
  - intros l Hl. destruct (Hlfk l Hl) as [Hp Hs]. split; [by apply Hpfresh|].
    intros (s & Heq & [Hsp [Hin|Hin]%elem_of_app]%list_elem_of_filter)
             %list_elem_of_fmap.
    + by apply (Hpfresh (subject_project_id s)); [apply Hsfk|].
    + apply list_elem_of_singleton in Hin as ->. simpl in Heq.
      by apply (Hsfresh (log_subject_id l)).
  - intros [H _]. by apply H.
Qed.

Lemma delete_project_undoes_witness :
  ∃ pid sid lid d1 d2 d3,
    add_project "Novo" db0 = (Returned pid, d1)
    ∧ add_subject pid "Aula" d1 = (Returned sid, d2)
    ∧ add_log pid sid 0 60 60 d2 = (Returned lid, d3)
    ∧ length (logs d3) = S (length (logs db0))
    ∧ same_rows db0 (delete_project pid d3).2.
Proof.
  apply (delete_project_undoes "Novo" "Aula" 0 60 60 db0 built_db0);
    [done|done|].
  simpl. apply not_elem_of_cons. split; [done|apply not_elem_of_nil].
Defined.

(** X5. Deleting a subject undoes what was made under it.  On a store that
    the methods built, a subject under a new name of an existing project
    and a log of it are added; [delete_subject] on the subject then leaves
    the rows of the three tables as they were at the start. *)
Theorem delete_subject_undoes pid sname t1 t2 dur d :
  built d →
  strip sname ≠ "" → project_exists pid d = true →
  ((pid, strip sname)
   ∉ (λ s, (subject_project_id s, subject_name s)) <$> subjects d) →
  ∃ sid lid d1 d2,
    add_subject pid sname d = (Returned sid, d1)
    ∧ add_log pid sid t1 t2 dur d1 = (Returned lid, d2)
    ∧ length (logs d2) = S (length (logs d))
    ∧ same_rows d (delete_subject sid d2).2.
Proof.
  intros Hb Hsne Hex Hnew.
  destruct (schema_of_built d Hb) as [_ Hsk _ _ _ _ _ _ Hlfk].
  set (sid := next_rowid (seq_subjects d) (subject_id <$> subjects d)).
  assert (∀ i, i ∈ subject_id <$> subjects d → i ≠ sid) as Hsfresh.
  { intros i Hi. destruct (next_rowid_fresh (seq_subjects d)
                             (subject_id <$> subjects d)) as [_ Hf].
    specialize (Hf i Hi). subst sid. lia. }
  eexists sid, _, _, _.
  split; [by apply add_subject_new|].
  split.
  { unfold add_log.
    match goal with
    | |- context [project_exists pid ?x && subject_exists sid ?x] =>
        replace (project_exists pid x) with true by (symmetry; exact Hex);
        replace (subject_exists sid x) with true; [done|]
    end.
    symmetry. apply bool_decide_eq_true. simpl. rewrite fmap_app.
    apply elem_of_app. right. left. }
  split; [simpl; by rewrite length_app, Nat.add_1_r|].
  match goal with
  | |- same_rows _ (delete_subject _ ?x).2 =>
      destruct (delete_subject_cases sid x) as [[Hex' _]|[_ Hdel]]
  end.
  { apply bool_decide_eq_false in Hex'. exfalso. apply Hex'. simpl.
    rewrite fmap_app. apply elem_of_app. right. left. }
  rewrite Hdel. unfold same_rows. simpl.
  split; [done|]. split; apply filter_snoc_out; simpl.
  - intros s Hs Heq. apply (Hsfresh (subject_id s)); [|done].
    apply list_elem_of_fmap. eauto.
  - intros H. by apply H.
  - intros l Hl. destruct (Hlfk l Hl) as [_ Hs]. by apply Hsfresh.
  - intros H. by apply H.
Qed.

Lemma delete_subject_undoes_witness :
  ∃ sid lid d1 d2,
    add_subject 1 "Aula" db0 = (Returned sid, d1)
    ∧ add_log 1 sid 0 60 60 d1 = (Returned lid, d2)
    ∧ length (logs d2) = S (length (logs db0))
    ∧ same_rows db0 (delete_subject sid d2).2.
Proof.
  apply (delete_subject_undoes 1 "Aula" 0 60 60 db0 built_db0);
    [done|done|].
  simpl. apply not_elem_of_cons. split; [done|apply not_elem_of_nil].
Defined.

(** X6. In a store that the methods built, deleting a project or a subject
    whose id is not in the store changes nothing. *)
Theorem delete_missing_is_noop d :
  built d →
  (∀ pid, project_exists pid d = false →
          delete_project pid d = (Returned tt, d))
  ∧ (∀ sid, subject_exists sid d = false →
            delete_subject sid d = (Returned tt, d)).
Proof.
  intros _. split.
  - intros pid Hex.
    destruct (delete_project_cases pid d) as [[_ Hd]|[Hex' _]];
      [|congruence].
    unfold delete_project, modify in *. simpl in *. by rewrite Hd.
  - intros sid Hex.
    destruct (delete_subject_cases sid d) as [[_ Hd]|[Hex' _]];
      [|congruence].
    unfold delete_subject, modify in *. simpl in *. by rewrite Hd.
Qed.

Lemma delete_missing_is_noop_witness :
  delete_project 7 db0 = (Returned tt, db0)
  ∧ delete_subject 9 db0 = (Returned tt, db0).
Proof.
  destruct (delete_missing_is_noop db0 built_db0) as [H1 H2].
  split; [apply H1|apply H2]; reflexivity.
Defined.

(** X7. Deleting a project and then adding a subject under its id: the
    subject is refused with the foreign-key error, whatever store the
    methods had built, for every name that is not blank. *)
Theorem no_subject_under_deleted_project pid name d :
  built d → strip name ≠ "" →
  add_subject pid name (delete_project pid d).2
  = (Raised fk_failed, (delete_project pid d).2).
Proof.
  intros Hb Hne.
  pose proof (built_delete_project pid d Hb) as Hb'.
  pose proof (delete_project_gone pid d) as Hex.
  unfold add_subject. rewrite bool_decide_eq_false_2 by done.
  unfold bind, insert_or_ignore_subject.
  rewrite no_project_no_subject by auto using built_fk_ok.
  by rewrite Hex.
Qed.

Lemma no_subject_under_deleted_project_witness :
  add_subject 1 "Geral" (delete_project 1 db0).2
  = (Raised fk_failed, (delete_project 1 db0).2).
Proof.
  apply (no_subject_under_deleted_project 1 "Geral" db0 built_db0).
  by vm_compute.
Defined.

(** ** The listings and the reports *)

Lemma on_day_in_range day (rows : list log) :
  filter (λ l, between day day l) rows = filter (on_day day) rows.
Proof.
  apply list_filter_iff. intros l. unfold between, on_day.
  rewrite bool_decide_spec. lia.
Qed.

(** X8. A day is the range from that day to that day: [get_logs_day] gives
    what [get_logs_range] gives on it, and [summary_by_subject_day] what
    [summary_by_subject_range] gives. *)
Theorem day_is_range_of_one_day day d :
  get_logs_range day day d = get_logs_day day d
  ∧ summary_by_subject_range day day d = summary_by_subject_day day d.
Proof.
  unfold get_logs_range, get_logs_day, summary_by_subject_range,
    summary_by_subject_day.
  by rewrite on_day_in_range.
Qed.

Lemma by_start_trans : Transitive by_start.
Proof. unfold by_start. intros a b c. lia. Qed.

Lemma by_start_total : Total by_start.
Proof. unfold by_start. intros a b. lia. Qed.

Lemma joined_names d l :
  schema d → l ∈ logs d →
  ∃ p s, p ∈ projects d ∧ s ∈ subjects d
         ∧ project_id p = log_project_id l ∧ subject_id s = log_subject_id l
         ∧ project_name_of d l = Some (project_name p)
         ∧ subject_name_of d l = Some (subject_name s).
Proof.
  intros [_ _ _ _ _ _ _ _ Hlfk] Hl. destruct (Hlfk l Hl) as [Hp Hs].
  apply list_elem_of_fmap in Hp as (p0 & Hp0 & Hin0).
  apply list_elem_of_fmap in Hs as (s0 & Hs0 & Hin1).
  unfold project_name_of, subject_name_of.
  destruct (filter (λ p, project_id p = log_project_id l) (projects d))
    as [|p ps] eqn:Ep.
  { exfalso. by eapply (filter_nil_not_elem_of _ _ p0 Ep). }
  destruct (filter (λ s, subject_id s = log_subject_id l) (subjects d))
    as [|s ss] eqn:Es.
  { exfalso. by eapply (filter_nil_not_elem_of _ _ s0 Es). }
  assert (p ∈ filter (λ p, project_id p = log_project_id l) (projects d))
    as [? ?]%list_elem_of_filter by (rewrite Ep; left).
  assert (s ∈ filter (λ s, subject_id s = log_subject_id l) (subjects d))
    as [? ?]%list_elem_of_filter by (rewrite Es; left).
  exists p, s. done.
Qed.

(** X9. [get_logs_range] lists the logs that start on a day of the range,
    each one once, by ascending start.  In a store that the methods built
    every row carries the name of a project and the name of a subject of
    the store: the join finds both, and no name is [NULL]. *)
Theorem logs_of_range_are_listed start_iso end_iso d :
  built d →
  ∃ rows,
    get_logs_range start_iso end_iso d = joined d <$> rows
    ∧ rows ≡ₚ filter (in_range start_iso end_iso) (logs d)
    ∧ StronglySorted by_start rows
    ∧ ∀ l, l ∈ rows →
           ∃ p s, p ∈ projects d ∧ s ∈ subjects d
                  ∧ project_id p = log_project_id l
                  ∧ subject_id s = log_subject_id l
                  ∧ joined d l
                    = (log_id l, Some (project_name p), Some (subject_name s),
                       log_start_time l, log_end_time l, log_duration l).
Proof.
  intros Hb. pose proof (schema_of_built d Hb) as Hs.
  exists (merge_sort by_start
            (filter (λ l, between start_iso end_iso l) (logs d))).
  split; [done|]. rewrite between_in_range.
  split; [apply merge_sort_Permutation|].
  split.
  { apply StronglySorted_merge_sort; [apply by_start_trans|apply by_start_total]. }
  intros l Hl. rewrite merge_sort_Permutation in Hl.
  apply list_elem_of_filter in Hl as [_ Hl].
  destruct (joined_names d l Hs Hl) as (p & s & ? & ? & ? & ? & Hpn & Hsn).
  exists p, s. unfold joined. rewrite Hpn, Hsn. done.
Qed.

Lemma built_db1 : built db1.
Proof. apply built_add_log, built_db0. Qed.

Lemma logs_of_range_are_listed_witness :
  ∃ rows,
    get_logs_range 0 0 db1 = joined db1 <$> rows
    ∧ rows ≡ₚ filter (in_range 0 0) (logs db1)
    ∧ StronglySorted by_start rows
    ∧ ∀ l, l ∈ rows →
           ∃ p s, p ∈ projects db1 ∧ s ∈ subjects db1
                  ∧ project_id p = log_project_id l
                  ∧ subject_id s = log_subject_id l
                  ∧ joined db1 l
                    = (log_id l, Some (project_name p), Some (subject_name s),
                       log_start_time l, log_end_time l, log_duration l).
Proof. exact (logs_of_range_are_listed 0 0 db1 built_db1). Defined.

(** X10. In a store that the methods built, every row of
    [summary_by_subject_range] carries the name of a subject, which is not
    empty: no row has [NULL] for a name. *)
Theorem summary_names_are_subjects start_iso end_iso d :
  built d →
  ∀ name total,
    (name, total) ∈ summary_by_subject_range start_iso end_iso d →
    ∃ s, s ∈ subjects d ∧ name = Some (subject_name s)
         ∧ subject_name s ≠ "".
Proof.
  intros Hb name total Hin. pose proof (schema_of_built d Hb) as Hs.
  unfold summary_by_subject_range in Hin.
  destruct (sorted_groups_spec by_total_desc (subject_name_of d)
              (filter (λ l, between start_iso end_iso l) (logs d)))
    as [_ Hspec].
  apply Hspec in Hin as [Hkey _].
  apply list_elem_of_fmap in Hkey as (l & -> & [_ Hl]%list_elem_of_filter).
  destruct (joined_names d l Hs Hl) as (p & s & _ & Hsin & _ & _ & _ & Hsn).
  exists s. split; [done|]. split; [done|].
  by destruct (subject_names d Hs s Hsin).
Qed.

Lemma summary_names_are_subjects_witness :
  ∃ s, s ∈ subjects db1 ∧ Some "Geral" = Some (subject_name s)
       ∧ subject_name s ≠ "".
Proof.
  apply (summary_names_are_subjects 0 0 db1 built_db1 (Some "Geral") 1500).
  vm_compute. left.
Defined.

(** ** The totals of the reports *)

Lemma foldl_totals {K} (rows : list (K * Z)) a :
  foldl (λ total row, total + row.2) a rows = a + sum_totals rows.
Proof.
  unfold sum_totals. revert a.
  induction rows as [|row rows IH]; intros a; simpl; [lia|].
  rewrite (IH (a + row.2)), (IH (0 + row.2)). lia.
Qed.

Lemma sum_totals_cons {K} (row : K * Z) rows :
  sum_totals (row :: rows) = row.2 + sum_totals rows.
Proof. unfold sum_totals at 1. simpl. rewrite foldl_totals. lia. Qed.

Lemma sum_totals_perm {K} (rows rows' : list (K * Z)) :
  rows ≡ₚ rows' → sum_totals rows = sum_totals rows'.
Proof.
  induction 1 as [|x l l' _ IH|x y l|l l' l'' _ IH1 _ IH2];
    rewrite ?sum_totals_cons in *; [done|lia|lia|congruence].
Qed.

Lemma sum_totals_accumulate {K} `{EqDecision K} (k : K) v acc :
  sum_totals (accumulate k v acc) = sum_totals acc + v.
Proof.
  induction acc as [|[k' t] acc IH]; simpl; [done|].
  destruct (decide (k = k')); rewrite !sum_totals_cons; simpl; [lia|].
  rewrite IH. lia.
Qed.

Lemma sum_durations_snoc rows l :
  sum_durations (rows ++ [l])%list = sum_durations rows + log_duration l.
Proof.
  unfold sum_durations. induction rows as [|l' rows IH]; simpl; lia.
Qed.

Lemma sum_durations_perm rows rows' :
  rows ≡ₚ rows' → sum_durations rows = sum_durations rows'.
Proof.
  unfold sum_durations.
  induction 1 as [|x l l' _ IH|x y l|l l' l'' _ IH1 _ IH2]; simpl;
    [done|lia|lia|congruence].
Qed.

Lemma sum_totals_group {K} `{EqDecision K} (key : log → K) rows :
  sum_totals (group_by_sum key rows) = sum_durations rows.
Proof.
  unfold group_by_sum.
  induction rows as [|l rows IH] using rev_ind; [done|].
  by rewrite foldl_snoc, sum_totals_accumulate, sum_durations_snoc, IH.
Qed.

Lemma sum_totals_joined d rows :
  sum_totals (joined d <$> rows) = sum_durations rows.
Proof.
  induction rows as [|l rows IH]; [done|].
  rewrite fmap_cons, sum_totals_cons, IH. done.
Qed.

Lemma group_by_sum_nil {K} `{EqDecision K} (key : log → K) rows :
  group_by_sum key rows = [] ↔ rows = [].
Proof.
  split; [|by intros ->].
  destruct rows as [|l rows] using rev_ind; [done|]. clear IHrows.
  unfold group_by_sum. rewrite foldl_snoc.
  by destruct (foldl _ _ rows) as [|[k t] acc]; simpl;
    [|destruct (decide (key l = k))].
Qed.

Lemma merge_sort_nil {A} (R : relation A) `{∀ a b, Decision (R a b)}
    (l : list A) :
  merge_sort R l = [] ↔ l = [].
Proof.
  split.
  - intros E. apply Permutation_nil_r. rewrite <- E.
    by rewrite merge_sort_Permutation.
  - by intros ->.
Qed.

Lemma fmap_nil_iff {A B} (f : A → B) (l : list A) : f <$> l = [] ↔ l = [].
Proof. split; [apply fmap_nil_inv|by intros ->]. Qed.

(** X11. The reports agree on the total: over a range, the durations of
    the rows of [get_logs_range], the totals of [summary_by_subject_range]
    (which [export_week_pdf] adds up) and the totals of [summary_by_day]
    all sum to the durations of the logs that start in the range; a log
    whose subject or project row is missing counts all the same.  On one
    day, [export_day_pdf] and [export_week_pdf] give the same total. *)
Theorem report_totals_agree start_iso end_iso day d :
  let total :=
    sum_durations (filter (in_range start_iso end_iso) (logs d)) in
  sum_totals (get_logs_range start_iso end_iso d) = total
  ∧ export_week_total start_iso end_iso d = total
  ∧ sum_totals (summary_by_day start_iso end_iso d) = total
  ∧ export_day_total day d = export_week_total day day d
  ∧ export_day_total day d = sum_totals (summary_by_subject_day day d).
Proof.
  intros total. subst total.
  unfold export_day_total, export_week_total, get_logs_range, get_logs_day,
    summary_by_subject_range, summary_by_subject_day, summary_by_day.
  rewrite on_day_in_range, between_in_range.
  rewrite !sum_totals_joined.
  rewrite !(sum_totals_perm _ _ (merge_sort_Permutation _ _)).
  rewrite !sum_totals_group.
  rewrite !(sum_durations_perm _ _ (merge_sort_Permutation _ _)).
  done.
Qed.

(** X12. With reportlab at hand, [export_week_pdf] stops with "Sem dados"
    exactly when no log starts in the range, and [export_day_pdf] exactly
    when none starts on the day; otherwise they go on to ask for a file
    name.  Without reportlab both stop with the warning "ReportLab",
    whatever the store holds.  When a week report is written, both of its
    tables have rows: [subj_data] and [day_data] are empty together. *)
Theorem no_data_iff_no_log start_iso end_iso day d :
  (export_week_pdf true start_iso end_iso d = sem_dados
   ↔ filter (in_range start_iso end_iso) (logs d) = [])
  ∧ (export_week_pdf true start_iso end_iso d = save_dialog
     ↔ filter (in_range start_iso end_iso) (logs d) ≠ [])
  ∧ (export_day_pdf true day d = sem_dados
     ↔ filter (on_day day) (logs d) = [])
  ∧ (export_day_pdf true day d = save_dialog
     ↔ filter (on_day day) (logs d) ≠ [])
  ∧ export_week_pdf false start_iso end_iso d = reportlab_missing
  ∧ export_day_pdf false day d = reportlab_missing
  ∧ (summary_by_subject_range start_iso end_iso d = []
     ↔ summary_by_day start_iso end_iso d = []).
Proof.
  assert (summary_by_subject_range start_iso end_iso d = []
          ↔ filter (in_range start_iso end_iso) (logs d) = []) as Hsubj.
  { unfold summary_by_subject_range.
    by rewrite between_in_range, merge_sort_nil, group_by_sum_nil. }
  assert (summary_by_day start_iso end_iso d = []
          ↔ filter (in_range start_iso end_iso) (logs d) = []) as Hday.
  { unfold summary_by_day.
    by rewrite between_in_range, merge_sort_nil, group_by_sum_nil. }
  assert (get_logs_day day d = [] ↔ filter (on_day day) (logs d) = [])
    as Hlogs.
  { unfold get_logs_day. by rewrite fmap_nil_iff, merge_sort_nil. }
  unfold export_week_pdf, export_day_pdf. simpl.
  repeat case_bool_decide; simpl; repeat split; try done; try tauto;
    intros; exfalso; tauto.
Qed.

(** ** The loaders of the main window *)

Lemma dict_of_snoc rows row :
  dict_of (rows ++ [row]) = <[row.2 := row.1]> (dict_of rows).
Proof. unfold dict_of. by rewrite foldl_snoc. Qed.

Lemma dict_of_lookup rows id name :
  NoDup rows.*2 → (id, name) ∈ rows → dict_of rows !! name = Some id.
Proof.
  induction rows as [|[id' name'] rows IH] using rev_ind;
    [by intros _ ?%elem_of_nil|].
  rewrite fmap_app, NoDup_app, dict_of_snoc. simpl.
  intros (Hnd & Hfresh & _) [Hin|[= -> ->]%list_elem_of_singleton]%elem_of_app.
  - rewrite lookup_insert_ne; [by apply IH|].
    intros ->. apply (Hfresh name); [|left].
    apply list_elem_of_fmap. by exists (id, name).
  - by rewrite lookup_insert_eq.
Qed.

Lemma get_projects_perm d :
  get_projects d ≡ₚ (λ p, (project_id p, project_name p)) <$> projects d.
Proof. apply merge_sort_Permutation. Qed.

Lemma get_subjects_perm pid d :
  get_subjects pid d
  ≡ₚ (λ s, (subject_id s, subject_name s))
       <$> filter (λ s, subject_project_id s = pid) (subjects d).
Proof. apply merge_sort_Permutation. Qed.

Lemma get_projects_names d :
  schema d → NoDup (get_projects d).*2.
Proof.
  intros Hs. rewrite get_projects_perm, <- list_fmap_compose.
  apply (project_unique d Hs).
Qed.

Lemma get_subjects_names pid d :
  schema d → NoDup (get_subjects pid d).*2.
Proof.
  intros Hs. rewrite get_subjects_perm, <- list_fmap_compose.
  apply (NoDup_fmap_1 (pair pid)). rewrite <- list_fmap_compose.
  pose proof (subject_unique d Hs) as Hu.
  eapply sublist_NoDup; [exact Hu|].
  erewrite (list_fmap_ext _ (λ s, (subject_project_id s, subject_name s))).
  - apply fmap_sublist, sublist_filter.
  - intros i s Hs'%list_elem_of_lookup_2.
    apply list_elem_of_filter in Hs' as [<- _]. done.
Qed.

Lemma built_no_project d :
  built d → projects d = [] → subjects d = [] ∧ logs d = [].
Proof.
  intros Hs%schema_of_built Hp. split.
  - destruct (subjects d) as [|s ss] eqn:E; [done|].
    assert (s ∈ subjects d) as Hin%(subject_fk d Hs) by (rewrite E; left).
    rewrite Hp in Hin. by apply elem_of_nil in Hin.
  - destruct (logs d) as [|l ls] eqn:E; [done|].
    assert (l ∈ logs d) as [Hin _]%(log_fk d Hs) by (rewrite E; left).
    rewrite Hp in Hin. by apply elem_of_nil in Hin.
Qed.

(** On a store without projects, the default project and its subject are
    created; any other store is left alone. *)
Lemma ensure_default_built d :
  built d →
  ∃ d', ensure_default d = (Returned tt, d')
        ∧ built d'
        ∧ get_projects d' ≠ []
        ∧ (projects d ≠ [] → d' = d)
        ∧ (projects d = [] →
           ∃ pid sid, get_projects d' = [(pid, "Default")]
                      ∧ get_subjects pid d' = [(sid, "Geral")]).
Proof.
  intros Hb. unfold ensure_default, bind, get.
  destruct (get_projects d) as [|row rows] eqn:E.
  - apply merge_sort_nil, fmap_nil_inv in E.
    destruct (built_no_project d Hb E) as [Hss Hls].
    destruct (add_project_valid "Default" d) as (pid & Hadd & Hsel);
      [done|].
    change (strip "Default") with "Default" in *.
    pose proof (built_add_project "Default" d Hb) as Hb1.
    rewrite Hadd in Hb1 |- *. simpl in Hb1.
    set (d1 := (insert_or_ignore_project "Default" d).2) in *.
    assert (projects d1
            = [ {| project_id := pid; project_name := "Default" |} ]
            ∧ subjects d1 = []) as [Hps1 Hss1].
    { subst d1. unfold insert_or_ignore_project, select_project_id in *.
      rewrite E in *. simpl in *. by injection Hsel as <-. }
    assert (project_exists pid d1 = true) as Hex.
    { apply bool_decide_eq_true. rewrite Hps1. simpl. left. }
    destruct (add_subject_valid pid "Geral" d1 ltac:(done) Hex)
      as (sid & Hadd2 & Hsel2).
    change (strip "Geral") with "Geral" in *.
    pose proof (built_add_subject pid "Geral" d1 Hb1) as Hb2.
    rewrite Hadd2 in Hb2 |- *. simpl in Hb2.
    set (d2 := (insert_or_ignore_subject pid "Geral" d1).2) in *.
    assert (projects d2 = projects d1
            ∧ subjects d2
              = [ {| subject_id := sid; subject_project_id := pid;
                     subject_name := "Geral" |} ]) as [Hps2 Hss2].
    { subst d2. unfold insert_or_ignore_subject, select_subject_id in *.
      rewrite Hss1, Hex in *. simpl in *.
      rewrite filter_cons, decide_True in Hsel2 by done.
      by injection Hsel2 as <-. }
    exists d2. split; [done|]. split; [done|].
    unfold get_projects, get_subjects. rewrite Hps2, Hps1, Hss2.
    split; [done|]. split; [done|]. intros _.
    exists pid, sid. split; [done|].
    rewrite filter_cons, decide_True by done. done.
  - exists d. split; [done|]. split; [done|]. split; [by rewrite E|].
    split; [done|]. intros Hp. unfold get_projects in E.
    by rewrite Hp in E.
Qed.

Lemma get_subjects_row pid sid sname d :
  schema d → (sid, sname) ∈ get_subjects pid d →
  sname ≠ "" ∧ sid ≠ 0 ∧ subject_exists sid d = true
  ∧ dict_of (get_subjects pid d) !! sname = Some sid.
Proof.
  intros Hs Hin. pose proof Hin as Hin'.
  rewrite get_subjects_perm in Hin'.
  apply list_elem_of_fmap in Hin' as (s & [= -> ->] & [_ Hs']%list_elem_of_filter).
  split; [by destruct (subject_names d Hs s Hs')|].
  assert (subject_id s ∈ subject_id <$> subjects d) as Hid
    by (apply list_elem_of_fmap; eauto).
  split.
  { destruct (subject_keys d Hs) as (_ & _ & Hr). specialize (Hr _ Hid). lia. }
  split; [by apply bool_decide_eq_true|].
  by apply dict_of_lookup; [apply get_subjects_names|].
Qed.

Lemma get_projects_row pid pname d :
  schema d → (pid, pname) ∈ get_projects d →
  pname ≠ "" ∧ pid ≠ 0 ∧ project_exists pid d = true
  ∧ dict_of (get_projects d) !! pname = Some pid.
Proof.
  intros Hs Hin. pose proof Hin as Hin'.
  rewrite get_projects_perm in Hin'.
  apply list_elem_of_fmap in Hin' as (p & [= -> ->] & Hp).
  split; [by destruct (project_names d Hs p Hp)|].
  assert (project_id p ∈ project_id <$> projects d) as Hid
    by (apply list_elem_of_fmap; eauto).
  split.
  { destruct (project_keys d Hs) as (_ & _ & Hr). specialize (Hr _ Hid). lia. }
  split; [by apply bool_decide_eq_true|].
  by apply dict_of_lookup; [apply get_projects_names|].
Qed.

(** What [_load_subjects] leaves behind when the project that the first
    combobox shows is in the dictionary. *)
Lemma load_subjects_found self pid :
  schema (db self) →
  _projects (selection self) !! cb_project (selection self) = Some pid →
  ∃ r, _load_subjects self = (Returned tt, r)
       ∧ db r = db self
       ∧ cb_project (selection r) = cb_project (selection self)
       ∧ _projects (selection r) = _projects (selection self)
       ∧ current_project_id r = Some pid
       ∧ match head (get_subjects pid (db self)) with
         | Some (sid, sname) =>
             cb_subject (selection r) = sname
             ∧ current_subject_id r = Some sid
             ∧ _subjects (selection r) !! sname = Some sid
             ∧ sname ≠ "" ∧ sid ≠ 0 ∧ subject_exists sid (db self) = true
         | None =>
             cb_subject (selection r) = cb_subject (selection self)
             ∧ _subjects (selection r) = ∅
             ∧ current_subject_id r = None
         end.
Proof.
  intros Hs Hpid. unfold _load_subjects, bind, get, modify. simpl.
  rewrite Hpid. simpl.
  destruct (get_subjects pid (db self)) as [|[sid sname] rows] eqn:E; simpl.
  - eexists. split; [reflexivity|]. simpl. done.
  - eexists. split; [reflexivity|]. simpl.
    destruct (get_subjects_row pid sid sname (db self) Hs)
      as (? & ? & ? & Hd); [rewrite E; left|].
    rewrite E in Hd. done.
Qed.

Lemma dict_of_elem rows id name :
  dict_of rows !! name = Some id → (id, name) ∈ rows.
Proof.
  induction rows as [|[id' name'] rows IH] using rev_ind; [done|].
  rewrite dict_of_snoc, elem_of_app, list_elem_of_singleton. simpl.
  destruct (decide (name' = name)) as [->|Hne].
  - rewrite lookup_insert_eq. intros [= ->]. by right.
  - rewrite lookup_insert_ne by done. auto.
Qed.

(** X13. [_load_subjects], the handler of the project combobox, over a
    store that the methods built and the dictionary that [_load_projects]
    made of it.  When the combobox shows a project of the dictionary, the
    first subject of that project in the order of [get_subjects] becomes
    the selection: its name is shown, its id is held for the next log, and
    [start] will accept the selection.  When the project has no subject,
    no subject id is held, the dictionary of subjects is empty, and the
    second combobox keeps the text it showed.  The store is not touched. *)
Theorem load_subjects_selects_first self :
  built (db self) →
  _projects (selection self) = dict_of (get_projects (db self)) →
  ∃ r, _load_subjects self = (Returned tt, r)
       ∧ db r = db self
       ∧ match _projects (selection self) !! cb_project (selection self) with
         | Some pid =>
             current_project_id r = Some pid
             ∧ match head (get_subjects pid (db self)) with
               | Some (sid, sname) =>
                   cb_subject (selection r) = sname
                   ∧ current_subject_id r = Some sid
                   ∧ selected pid sid r
               | None =>
                   cb_subject (selection r) = cb_subject (selection self)
                   ∧ _subjects (selection r) = ∅
                   ∧ current_subject_id r = None
               end
         | None =>
             selection r = selection self
             ∧ current_project_id r = None
             ∧ current_subject_id r = None
         end.
Proof.
  intros Hs%schema_of_built Hdict.
  destruct (_projects (selection self) !! cb_project (selection self))
    as [pid|] eqn:Hpid.
  - destruct (load_subjects_found self pid Hs Hpid)
      as (r & Hrun & Hdb & Hcb & Hps & Hcur & Hsub).
    exists r. split; [done|]. split; [done|]. split; [done|].
    destruct (head (get_subjects pid (db self))) as [[sid sname]|];
      [|done].
    destruct Hsub as (Hsname & Hsid & Hlook & ? & ? & ?).
    split; [done|]. split; [done|].
    rewrite Hdict in Hpid. apply dict_of_elem in Hpid.
    destruct (get_projects_row _ _ _ Hs Hpid) as (? & ? & ? & _).
    split; rewrite ?Hcb, ?Hps, ?Hsname, ?Hdb; try done.
    by rewrite Hdict; apply dict_of_lookup; [apply get_projects_names|].
  - unfold _load_subjects, bind, get, modify. simpl. rewrite Hpid. simpl.
    eexists. split; [reflexivity|]. done.
Qed.

Lemma load_subjects_selects_first_witness :
  ∃ r, _load_subjects app0 = (Returned tt, r) ∧ db r = db0
       ∧ current_project_id r = Some 1
       ∧ cb_subject (selection r) = "Geral"
       ∧ current_subject_id r = Some 1
       ∧ selected 1 1 r.
Proof.
  destruct (load_subjects_selects_first app0 built_db0 eq_refl)
    as (r & Hrun & Hdb & Hsel).
  exists r. split; [exact Hrun|]. split; [exact Hdb|]. exact Hsel.
Defined.

(** X14. [_load_projects], which runs when the window opens and when the
    manager closes, over a store that the methods built.  It returns, and
    leaves a store with at least one project: a store without projects
    gets the project "Default" with the subject "Geral", any other store is
    left as it is.  The first project in the order of [get_projects] is
    shown and held; its first subject, when it has one, is shown and held
    too, and [start] will accept the selection. *)
Theorem load_projects_selects_first self :
  built (db self) →
  ∃ r pid pname,
    _load_projects self = (Returned tt, r)
    ∧ built (db r)
    ∧ (projects (db self) ≠ [] → db r = db self)
    ∧ head (get_projects (db r)) = Some (pid, pname)
    ∧ _projects (selection r) = dict_of (get_projects (db r))
    ∧ cb_project (selection r) = pname
    ∧ current_project_id r = Some pid
    ∧ match head (get_subjects pid (db r)) with
      | Some (sid, sname) =>
          cb_subject (selection r) = sname
          ∧ current_subject_id r = Some sid
          ∧ selected pid sid r
      | None =>
          cb_subject (selection r) = cb_subject (selection self)
          ∧ _subjects (selection r) = ∅
          ∧ current_subject_id r = None
      end
    ∧ (projects (db self) = [] →
       pname = "Default"
       ∧ ∃ sid, head (get_subjects pid (db r)) = Some (sid, "Geral")).
Proof.
  intros Hb.
  destruct (ensure_default_built (db self) Hb)
    as (d' & Hens & Hb' & Hne & Hsame & Hnew).
  pose proof (schema_of_built d' Hb') as Hs.
  unfold _load_projects, bind at 1, with_db. rewrite Hens.
  unfold bind, get, modify. simpl.
  destruct (get_projects d') as [|[pid pname] rows] eqn:E; [done|].
  destruct (get_projects_row pid pname d' Hs)
    as (Hpname & Hpid & Hex & Hlook); [rewrite E; left|].
  set (s1 := set_selection (set_cb_project pname)
               (set_selection (set__projects (dict_of ((pid, pname) :: rows)))
                  (set_db d' self))).
  destruct (load_subjects_found s1 pid Hs)
    as (r & Hrun & Hdb & Hcb & Hps & Hcur & Hsub);
    [by simpl; rewrite <- E|].
  simpl in Hdb, Hcb, Hps. exists r, pid, pname. rewrite Hrun, Hdb, E.
  split; [done|]. split; [done|]. split; [done|]. split; [done|].
  split; [done|]. split; [done|]. split; [done|]. split.
  - simpl in Hsub.
    destruct (head (get_subjects pid d')) as [[sid sname]|]; [|done].
    destruct Hsub as (Hsname & Hsid & Hl & ? & ? & ?).
    split; [done|]. split; [done|].
    split; rewrite ?Hcb, ?Hps, ?Hsname, ?Hdb; try done.
    by rewrite <- E.
  - intros Hnil. destruct (Hnew Hnil) as (pid' & sid & Hps' & Hss').
    injection Hps' as <- -> ->.
    split; [done|]. exists sid. by rewrite Hss'.
Qed.

Lemma load_projects_selects_first_witness :
  ∃ r, _load_projects app0 = (Returned tt, r) ∧ db r = db0
       ∧ cb_project (selection r) = "Default"
       ∧ cb_subject (selection r) = "Geral"
       ∧ selected 1 1 r.
Proof.
  destruct (load_projects_selects_first app0 built_db0)
    as (r & pid & pname & Hrun & _ & Hdb & Hhead & _ & Hcb & _ & Hsub & _).
  rewrite (Hdb ltac:(done)) in Hhead, Hsub.
  injection Hhead as <- <-. destruct Hsub as (Hs & _ & Hsel).
  exists r. split; [exact Hrun|]. split; [by apply Hdb|]. done.
Defined.

(** On first use, over the empty tables, [main] opens the window [app0]
    over the store [db0]. *)
Example main_first_use : main create_tables = (Returned app0, db0).
Proof. reflexivity. Qed.

(** ** What the timer does to the store *)

Lemma timer_writes_trans d1 d2 d3 :
  timer_writes d1 d2 → timer_writes d2 d3 → timer_writes d1 d3.
Proof. induction 2; [done|by constructor]. Qed.

Lemma steps_refl s : steps s s.
Proof.
  split; [done|]. split; [done|]. split; [constructor|]. by intros [? _].
Qed.

Lemma steps_trans s1 s2 s3 : steps s1 s2 → steps s2 s3 → steps s1 s3.
Proof.
  intros (Hsel1 & Hset1 & Hw1 & Hn1) (Hsel2 & Hset2 & Hw2 & Hn2).
  split; [congruence|]. split; [congruence|].
  split; [by eapply timer_writes_trans|].
  intros Hno. destruct (Hn1 Hno) as [Hc1 Hd1].
  destruct Hn2 as [Hc2 Hd2]; [|split; congruence].
  destruct Hno as [_ Hlook]. split; [done|]. by rewrite Hsel1.
Qed.

(** A change of the attributes that the timer counts with. *)
Lemma steps_attributes s r :
  selection r = selection s → settings r = settings s → db r = db s →
  current_subject_id r = current_subject_id s → steps s r.
Proof.
  intros Hsel Hset Hdb Hcur. split; [done|]. split; [done|].
  rewrite Hdb. split; [constructor|]. intros [Hc _]. split; congruence.
Qed.

Lemma steps_log_work_interval now s :
  steps s (log_work_interval now s).2
  ∧ current_subject_id (log_work_interval now s).2 = current_subject_id s.
Proof.
  split.
  - unfold log_work_interval, bind, get, ret.
    destruct (current_start s) as [start|]; [|apply steps_refl].
    destruct (bool_decide (session s = Work)); [|apply steps_refl].
    destruct (bool_decide (0 < total_seconds start now)) eqn:Hdur;
      [|apply steps_refl].
    apply bool_decide_eq_true in Hdur. simpl.
    destruct (current_project_id s) as [pid|] eqn:Hp; simpl;
      [|apply steps_refl].
    destruct (current_subject_id s) as [sid|] eqn:Hs; simpl;
      [|rewrite andb_false_r; apply steps_refl].
    destruct (bool_decide (pid ≠ 0) && bool_decide (sid ≠ 0));
      [|apply steps_refl].
    unfold with_db.
    pose proof (writes_log (db s) (db s) pid sid start now
                  (writes_nothing _) Hdur) as Hw.
    destruct (add_log pid sid _ _ _ (db s)) as [[id|e|] d'];
      simpl in *; (split; [done|]); (split; [done|]);
      (split; [done|]); intros [Hno _]; congruence.
  - unfold log_work_interval, with_db, add_log, bind, get, ret.
    repeat case_match; simplify_eq/=; done.
Qed.

Ltac attributes := apply steps_attributes; simpl; congruence.

Lemma stepping_finish_transition now : stepping (finish_transition now).
Proof.
  intros s. unfold finish_transition, bind, modify, get.
  set (s0 := set_btn_pause false (set_is_running false s)).
  assert (steps s s0) as H0 by attributes.
  pose proof (steps_log_work_interval now s0) as [H1 _].
  destruct (log_work_interval now s0) as [[[]| |] s'];
    simpl in *; try exact (steps_trans _ _ _ H0 H1).
  apply (steps_trans _ _ _ (steps_trans _ _ _ H0 H1)).
  repeat case_bool_decide; simpl; attributes.
Qed.

Lemma stepping_tick_with fin : stepping fin → stepping (_tick_with fin).
Proof.
  intros Hfin s. unfold _tick_with, bind, get, modify. simpl.
  destruct (is_running s); simpl; [|apply steps_refl].
  case_bool_decide; simpl; [apply Hfin|attributes].
Qed.

Lemma stepping_start_with tick now :
  stepping tick → stepping (start_with tick now).
Proof.
  intros Htick s. unfold start_with, show, bind, get, modify, ret. simpl.
  destruct (is_running s); simpl; [apply steps_refl|].
  destruct (bool_decide (cb_project (selection s) = "")
            || bool_decide (cb_subject (selection s) = "")); simpl;
    [attributes|].
  case_bool_decide; simpl;
    (eapply steps_trans; [|apply Htick]);
    (split; [done|]); (split; [done|]); (split; [constructor|]);
    intros [_ Hno]; simpl; done.
Qed.

Lemma stepping_finish_session replies now :
  stepping (_finish_session replies now).
Proof.
  revert now. induction replies as [|r0 replies IH]; intros now s.
  - simpl. unfold bind at 1.
    pose proof (stepping_finish_transition now s) as H1.
    destruct (finish_transition now s) as [[[]| |] s']; simpl in *;
      [|exact H1..].
    apply (steps_trans _ _ _ H1). attributes.
  - simpl. unfold bind at 1.
    pose proof (stepping_finish_transition now s) as H1.
    destruct (finish_transition now s) as [[[]| |] s']; simpl in *;
      [|exact H1..].
    unfold show, modify, bind at 1 2, get. simpl.
    apply (steps_trans _ _ _ H1). destruct r0 as [|now'].
    + simpl. attributes.
    + eapply steps_trans;
        [|apply stepping_start_with, stepping_tick_with, IH].
      attributes.
Qed.

Lemma stepping_dispatch ev : stepping (dispatch ev).
Proof.
  destruct ev as [now replies|now| |now replies]; simpl.
  - apply stepping_start_with, stepping_tick_with, stepping_finish_session.
  - intros s. unfold pause, bind, get, modify, ret.
    destruct (is_running s); simpl; [|apply steps_refl].
    set (s0 := ((if after_id s
                 then λ s0, (Returned (), set_after_id false s0)
                 else λ s0, (Returned (), s0)) (set_is_running false s)).2).
    assert (steps s s0) as H0 by (subst s0; destruct (after_id s); attributes).
    pose proof (steps_log_work_interval now s0) as [H1 _].
    subst s0. destruct (after_id s); simpl in *;
      destruct (log_work_interval now _) as [[[]| |] s']; simpl in *;
      try exact (steps_trans _ _ _ H0 H1);
      apply (steps_trans _ _ _ (steps_trans _ _ _ H0 H1)); attributes.
  - intros s. unfold reset_timer, bind, get, modify, ret. simpl.
    destruct (after_id s); simpl; attributes.
  - apply stepping_tick_with, stepping_finish_session.
Qed.

Lemma steps_mainloop evs s : steps s (mainloop evs s).
Proof.
  revert s. induction evs as [|ev evs IH]; intros s; [apply steps_refl|].
  rewrite mainloop_cons. eapply steps_trans; [apply stepping_dispatch|apply IH].
Qed.

Lemma total_seconds_sound start end_time :
  0 < total_seconds start end_time →
  total_seconds start end_time ≤ isoformat end_time - isoformat start
  ≤ total_seconds start end_time + 1.
Proof.
  unfold total_seconds, isoformat. intros Hpos.
  assert (0 ≤ end_time - start) as Hge.
  { destruct (Z.lt_ge_cases (end_time - start) 0) as [Hlt|]; [|done].
    pose proof (Z.quot_opp_l (end_time - start) 1000000 ltac:(lia)).
    pose proof (Z.quot_pos (- (end_time - start)) 1000000). lia. }
  rewrite Z.quot_div_nonneg in * by lia.
  Z.to_euclidean_division_equations. lia.
Qed.

Lemma timer_writes_spec d d' :
  timer_writes d d' →
  projects d' = projects d ∧ subjects d' = subjects d
  ∧ (∃ new, logs d' = (logs d ++ new)%list ∧ Forall sound_log new)
  ∧ (built d → built d').
Proof.
  induction 1 as [|d' pid sid start end_time _ IH Hpos].
  { split; [done|]. split; [done|]. split; [|done].
    exists []. by rewrite app_nil_r. }
  destruct IH as (Hps & Hss & (new & Hnew & Hsound) & Hb).
  split; [|split; [|split]].
  - by destruct (add_log_cases pid sid (isoformat start) (isoformat end_time)
                   (total_seconds start end_time) d')
      as [[-> _]|(_ & _ & ->)].
  - by destruct (add_log_cases pid sid (isoformat start) (isoformat end_time)
                   (total_seconds start end_time) d')
      as [[-> _]|(_ & _ & ->)].
  - destruct (add_log_cases pid sid (isoformat start) (isoformat end_time)
                (total_seconds start end_time) d')
      as [[-> _]|(_ & _ & ->)]; simpl; [by exists new|].
    eexists (new ++ [_])%list. rewrite Hnew, app_assoc. split; [done|].
    apply Forall_app. split; [done|]. apply Forall_singleton.
    split; [done|]. simpl. by apply total_seconds_sound.
  - intros Hd. by apply built_add_log, Hb.
Qed.

(** X15. Whatever events the main loop delivers to the timer, with whatever
    answers to its alerts, the store only receives logs: the projects and
    the subjects are as before, the logs that were there are there, in
    their order, and every new log has a duration above zero that its two
    timestamps bear out (they are apart by the duration or by one second
    more, having lost their microseconds).  A store that the methods built
    is still one.  The selection and the settings are not touched. *)
Theorem timer_only_appends_logs evs self :
  projects (db (mainloop evs self)) = projects (db self)
  ∧ subjects (db (mainloop evs self)) = subjects (db self)
  ∧ (∃ new, logs (db (mainloop evs self)) = (logs (db self) ++ new)%list
            ∧ Forall sound_log new)
  ∧ (built (db self) → built (db (mainloop evs self)))
  ∧ selection (mainloop evs self) = selection self
  ∧ settings (mainloop evs self) = settings self.
Proof.
  destruct (steps_mainloop evs self) as (Hsel & Hset & Hw & _).
  destruct (timer_writes_spec _ _ Hw) as (? & ? & ? & ?). done.
Qed.

(** X16. While no subject id is held and the subject combobox shows a text
    that is not a key of the dictionary of subjects, the timer writes
    nothing: whatever events the main loop delivers, sessions that run to
    their end and pauses included, the store stays as it is, and no
    subject id comes to be held. *)
Theorem no_log_without_subject_id evs self :
  no_subject_id self →
  db (mainloop evs self) = db self ∧ no_subject_id (mainloop evs self).
Proof.
  intros Hno. destruct (steps_mainloop evs self) as (Hsel & _ & _ & Hn).
  destruct (Hn Hno) as [Hcur Hdb]. split; [done|].
  destruct Hno as [_ Hlook]. split; [done|]. by rewrite Hsel.
Qed.

Lemma no_log_without_subject_id_witness :
  db (mainloop (Iniciar 0 [] :: callbacks 0 3 [] ++ [Pausar 5000000])
        stale_subject)
  = db stale_subject
  ∧ no_subject_id
      (mainloop (Iniciar 0 [] :: callbacks 0 3 [] ++ [Pausar 5000000])
         stale_subject).
Proof.
  apply (no_log_without_subject_id
           (Iniciar 0 [] :: callbacks 0 3 [] ++ [Pausar 5000000])
           stale_subject).
  split; reflexivity.
Defined.

Lemma load_projects_timer self :
  is_running (_load_projects self).2 = is_running self
  ∧ session (_load_projects self).2 = session self
  ∧ settings (_load_projects self).2 = settings self
  ∧ shown (_load_projects self).2 = shown self.
Proof.
  unfold _load_projects, _load_subjects, with_db, bind, get, modify, ret.
  repeat case_match; simplify_eq/=; done.
Qed.

(** X17. A session that cannot be logged.  The first project of the list
    has no subject (say the manager has just added it, under a name that
    sorts first), and the subject combobox still shows a name.  [_load_projects] leaves that name
    in place, so [start] accepts the selection without a warning and the
    work session runs; but no subject id is held, and nothing that happens
    afterwards puts a log in the store. *)
Theorem stale_subject_runs_unlogged self pid pname now :
  built (db self) →
  is_running self = false → session self = Idle →
  0 < work_minutes (settings self) →
  head (get_projects (db self)) = Some (pid, pname) →
  get_subjects pid (db self) = [] →
  cb_subject (selection self) ≠ "" →
  let w := (start [] now (_load_projects self).2).2 in
  is_running w = true ∧ session w = Work ∧ shown w = shown self
  ∧ current_start w = Some now
  ∧ ∀ evs, db (mainloop evs w) = db self.
Proof.
  intros Hb Hrun Hses Hwork Hfirst Hnone Hcb w.
  destruct (load_projects_selects_first self Hb)
    as (r & pid' & pname' & Hload & _ & Hdb & Hhead & Hdict & Hcbp & _
        & Hsub & _).
  destruct (load_projects_timer self) as (Hrun' & Hses' & Hset' & Hshown').
  subst w. rewrite Hload in *. simpl in *.
  assert (projects (db self) ≠ []) as Hne.
  { intros Hnil. unfold get_projects in Hfirst. by rewrite Hnil in Hfirst. }
  specialize (Hdb Hne). rewrite Hdb in *. rewrite Hfirst in Hhead.
  injection Hhead as <- <-. rewrite Hnone in Hsub. simpl in Hsub.
  destruct Hsub as (Hcbs & Hempty & Hcur).
  destruct (get_projects_row pid pname (db self) (schema_of_built _ Hb))
    as (Hpname & _); [by apply head_Some_elem_of|].
  assert (no_subject_id (start [] now r).2
          ∧ is_running (start [] now r).2 = true
          ∧ session (start [] now r).2 = Work
          ∧ shown (start [] now r).2 = shown self
          ∧ current_start (start [] now r).2 = Some now
          ∧ db (start [] now r).2 = db self) as (Hno & ? & ? & ? & ? & Hdbw).
  { unfold_methods. rewrite Hrun', Hrun. simpl.
    rewrite !bool_decide_eq_false_2 by congruence. simpl.
    rewrite Hses', Hses, bool_decide_eq_true_2 by done. simpl.
    rewrite bool_decide_eq_false_2 by (rewrite Hset'; lia). simpl.
    rewrite Hempty. repeat split; simpl; try done.
    by rewrite Hempty. }
  do 4 (split; [done|]). intros evs.
  destruct (steps_mainloop evs (start [] now r).2) as (_ & _ & _ & Hn).
  destruct (Hn Hno) as [_ ->]. done.
Qed.

Lemma stale_subject_runs_unlogged_witness :
  let w := (start [] 0 stale_subject).2 in
  is_running w = true ∧ session w = Work ∧ shown w = []
  ∧ current_start w = Some 0
  ∧ ∀ evs, db (mainloop evs w) = (add_project "Aulas" db0).2.
Proof.
  apply (stale_subject_runs_unlogged
           (set_db (add_project "Aulas" db0).2 app0) 2 "Aulas" 0);
    try reflexivity; try done.
  apply built_add_project, built_db0.
Defined.
